(** * Post-processing of model predictions

    A shallow embedding of
    [deeplabcut/pose_estimation_pytorch/data/postprocessor.py]:
    the stage objects, the three builder functions, and the [__call__]
    methods of [ConcatenateOutputs], [PadOutputs] and [RescaleAndOffset],
    over a small model of the numpy arrays they manipulate. *)

From Stdlib Require Import String Bool Arith ZArith Lia List.
Import ListNotations.
Open Scope string_scope.
Open Scope list_scope.
Open Scope nat_scope.

(** ** Python exceptions and fallible evaluation *)

Inductive exn : Type :=
| AttributeError
| IndexError
| KeyError
| TypeError
| ValueError.

Inductive result (A : Type) : Type :=
| Ok (a : A)
| Raise (e : exn).

Arguments Ok {A} a.
Arguments Raise {A} e.

Definition bind {A B : Type} (m : result A) (k : A -> result B) : result B :=
  match m with
  | Ok a => k a
  | Raise e => Raise e
  end.

Notation "x <- m ;; k" := (bind m (fun x => k))
  (at level 61, m at next level, right associativity).

(** [[f(x) for x in l]]: the elements are evaluated left to right and the
    first exception aborts the comprehension. *)
Fixpoint mapM {A B : Type} (f : A -> result B) (l : list A) : result (list B) :=
  match l with
  | [] => Ok []
  | x :: l' => y <- f x ;; ys <- mapM f l' ;; Ok (y :: ys)
  end.

(** ** Dictionaries

    A Python [dict] keeps its keys in insertion order, and that order is the
    order of iteration, so a dictionary is an association list with unique
    keys.  Assigning to an existing key keeps the key's position. *)

Definition dict (V : Type) : Type := list (string * V).

Fixpoint dict_get {V : Type} (d : dict V) (k : string) : option V :=
  match d with
  | [] => None
  | (k', v) :: d' => if String.eqb k' k then Some v else dict_get d' k
  end.

(** [d[k]] *)
Definition dict_getitem {V : Type} (d : dict V) (k : string) : result V :=
  match dict_get d k with
  | Some v => Ok v
  | None => Raise KeyError
  end.

(** [k in d] *)
Definition dict_contains {V : Type} (d : dict V) (k : string) : bool :=
  match dict_get d k with
  | Some _ => true
  | None => false
  end.

(** [d[k] = v] *)
Fixpoint dict_set {V : Type} (d : dict V) (k : string) (v : V) : dict V :=
  match d with
  | [] => [(k, v)]
  | (k', v') :: d' =>
      if String.eqb k' k then (k', v) :: d' else (k', v') :: dict_set d' k v
  end.

Definition dict_keys {V : Type} (d : dict V) : list string := map fst d.

(** [k in l] for a list of strings *)
Definition list_contains (l : list string) (k : string) : bool :=
  existsb (String.eqb k) l.

(** ** The stage objects

    Counts and array extents are natural numbers.  [pad_value] is the
    integer given to the constructor. *)

Module Mode.
Inductive t : Type := BBOX_XYWH | KEYPOINT | KEYPOINT_TD.

Definition eqb (a b : t) : bool :=
  match a, b with
  | BBOX_XYWH, BBOX_XYWH | KEYPOINT, KEYPOINT | KEYPOINT_TD, KEYPOINT_TD => true
  | _, _ => false
  end.
End Mode.

Record ConcatenateOutputs : Type := {
  keys_to_concatenate : dict (string * string);
  empty_shapes : option (dict (list nat));
  create_empty_outputs : bool
}.

Record PadOutputs : Type := {
  max_individuals : dict nat;
  pad_value : Z
}.

Record RescaleAndOffset : Type := {
  keys_to_rescale : list string;
  mode : Mode.t
}.

Record BboxToCoco : Type := {
  bounding_box_keys : list string
}.

Record AddContextToOutput : Type := {
  keys : list string
}.

Inductive Postprocessor : Type :=
| Concatenate (c : ConcatenateOutputs)
| Rescale (r : RescaleAndOffset)
| Pad (p : PadOutputs)
| ToCoco (b : BboxToCoco)
| AddContext (a : AddContextToOutput).

Record ComposePostprocessor : Type := {
  components : list Postprocessor
}.

(** ** Constructors *)

(** [k in self.empty_shapes]: membership in [None] is a [TypeError]. *)
Definition shapes_contain (es : option (dict (list nat))) (k : string) : result bool :=
  match es with
  | None => Raise TypeError
  | Some d => Ok (dict_contains d k)
  end.

(** [ConcatenateOutputs.__init__] *)
Definition ConcatenateOutputs_init
    (keys_to_concatenate : dict (string * string))
    (empty_shapes : option (dict (list nat)))
    (create_empty_outputs : bool) : result ConcatenateOutputs :=
  let self := {| keys_to_concatenate := keys_to_concatenate;
                 empty_shapes := empty_shapes;
                 create_empty_outputs := create_empty_outputs |} in
  if create_empty_outputs then
    found <- mapM (shapes_contain empty_shapes) (dict_keys keys_to_concatenate) ;;
    if negb (forallb (fun b => b) found) then Raise ValueError else Ok self
  else Ok self.

(** What a name looked up on the class [RescaleAndOffset] evaluates to.  The
    class body binds [Mode], [__init__] and [__call__]; its bases
    ([Postprocessor], [ABC], [object]) bind no further public name. *)
Inductive class_member : Type :=
| ModeEnum
| Method (name : string).

Definition RescaleAndOffset_namespace : dict class_member :=
  [("Mode", ModeEnum);
   ("__init__", Method "__init__");
   ("__call__", Method "__call__")].

(** [RescaleAndOffset.<name>] *)
Definition RescaleAndOffset_getattr (name : string) : result class_member :=
  match dict_get RescaleAndOffset_namespace name with
  | Some m => Ok m
  | None => Raise AttributeError
  end.

Definition Mode_members : dict Mode.t :=
  [("BBOX_XYWH", Mode.BBOX_XYWH);
   ("KEYPOINT", Mode.KEYPOINT);
   ("KEYPOINT_TD", Mode.KEYPOINT_TD)].

(** [<member>.<name>]: only the enumeration has the mode names. *)
Definition member_getattr (m : class_member) (name : string) : result Mode.t :=
  match m with
  | ModeEnum =>
      match dict_get Mode_members name with
      | Some v => Ok v
      | None => Raise AttributeError
      end
  | Method _ => Raise AttributeError
  end.

(** Values passed by keyword to [RescaleAndOffset(...)]. *)
Inductive argument : Type :=
| Keys (l : list string)
| ModeValue (m : Mode.t).

(** [RescaleAndOffset(k1=v1, ...)]: the keywords are bound to the parameters
    [keys_to_rescale] and [mode] of [__init__]; a keyword that names no
    parameter, or a parameter left without a value, is a [TypeError]. *)
Definition RescaleAndOffset_init (kwargs : dict argument) : result RescaleAndOffset :=
  if negb (forallb (list_contains ["keys_to_rescale"; "mode"]) (dict_keys kwargs))
  then Raise TypeError
  else
    match dict_get kwargs "keys_to_rescale", dict_get kwargs "mode" with
    | Some (Keys l), Some (ModeValue m) =>
        Ok {| keys_to_rescale := l; mode := m |}
    | _, _ => Raise TypeError
    end.

(** ** Builders *)

Definition build_bottom_up_postprocessor
    (max_individuals num_bodyparts num_unique_bodyparts : nat)
    : result ComposePostprocessor :=
  let keys_to_concatenate := [("bodyparts", ("bodypart", "poses"))] in
  let empty_shapes := [("bodyparts", [num_bodyparts; 3])] in
  let keys_to_rescale := ["bodyparts"] in
  let '(keys_to_concatenate, empty_shapes, keys_to_rescale) :=
    if 0 <? num_unique_bodyparts then
      (dict_set keys_to_concatenate "unique_bodyparts" ("unique_bodypart", "poses"),
       [("bodyparts", [num_bodyparts; 3])],
       keys_to_rescale ++ ["unique_bodyparts"])
    else (keys_to_concatenate, empty_shapes, keys_to_rescale) in
  c <- ConcatenateOutputs_init keys_to_concatenate (Some empty_shapes) true ;;
  cls <- RescaleAndOffset_getattr "DataType" ;;
  m <- member_getattr cls "KEYPOINT" ;;
  r <- RescaleAndOffset_init
         [("keys_to_rescale", Keys keys_to_rescale); ("data", ModeValue m)] ;;
  let p := {| max_individuals := [("bodyparts", max_individuals);
                                  ("unique_bodyparts", 0)];
              pad_value := (-1)%Z |} in
  Ok {| components := [Concatenate c; Rescale r; Pad p] |}.

Definition build_top_down_postprocessor
    (max_individuals num_bodyparts num_unique_bodyparts : nat)
    : result ComposePostprocessor :=
  let keys_to_concatenate := [("bodyparts", ("bodypart", "poses"))] in
  let empty_shapes := [("bodyparts", [num_bodyparts; 3])] in
  let keys_to_rescale := ["bodyparts"] in
  let '(keys_to_concatenate, empty_shapes, keys_to_rescale) :=
    if 0 <? num_unique_bodyparts then
      (dict_set keys_to_concatenate "unique_bodyparts" ("unique_bodypart", "poses"),
       dict_set empty_shapes "unique_bodyparts" [num_unique_bodyparts; 3],
       keys_to_rescale ++ ["unique_bodyparts"])
    else (keys_to_concatenate, empty_shapes, keys_to_rescale) in
  c <- ConcatenateOutputs_init keys_to_concatenate (Some empty_shapes) true ;;
  cls <- RescaleAndOffset_getattr "DataType" ;;
  m <- member_getattr cls "KEYPOINT_TD" ;;
  r <- RescaleAndOffset_init
         [("keys_to_rescale", Keys keys_to_rescale); ("data", ModeValue m)] ;;
  let a := {| keys := ["bboxes"; "bbox_scores"] |} in
  let p := {| max_individuals := [("bodyparts", max_individuals);
                                  ("bboxes", max_individuals);
                                  ("bbox_scores", max_individuals);
                                  ("unique_bodyparts", 0)];
              pad_value := (-1)%Z |} in
  Ok {| components := [Concatenate c; Rescale r; AddContext a; Pad p] |}.

Definition build_detector_postprocessor : result ComposePostprocessor :=
  c <- ConcatenateOutputs_init
         [("bboxes", ("detection", "bboxes"));
          ("bbox_scores", ("detection", "scores"))] None false ;;
  let b := {| bounding_box_keys := ["bboxes"] |} in
  cls <- RescaleAndOffset_getattr "DataType" ;;
  m <- member_getattr cls "BBOX_XYWH" ;;
  r <- RescaleAndOffset_init
         [("keys_to_rescale", Keys ["bboxes"]); ("data", ModeValue m)] ;;
  Ok {| components := [Concatenate c; ToCoco b; Rescale r] |}.

(** ** Arrays

    An [ndarray] is its shape and its elements in row-major order.  The
    element type and its arithmetic are left abstract: every array of a call
    holds elements of the same type, and what follows holds for whatever
    [mul], [add] and negation that type comes with. *)

Class Scalar (elt : Type) : Type := {
  zero : elt;
  one : elt;
  neg : elt -> elt;
  add : elt -> elt -> elt;
  mul : elt -> elt -> elt
}.

#[export] Instance Z_Scalar : Scalar Z := {
  zero := 0%Z;
  one := 1%Z;
  neg := Z.opp;
  add := Z.add;
  mul := Z.mul
}.

Record ndarray (elt : Type) : Type := mk_ndarray {
  shape : list nat;
  data : list elt
}.

Arguments mk_ndarray {elt} shape data.
Arguments shape {elt} n.
Arguments data {elt} n.

(** Number of elements of an array of shape [s]. *)
Definition size_of (s : list nat) : nat := fold_right Nat.mul 1 s.

(** The elements of a well-formed array fill its shape. *)
Definition well_formed {elt : Type} (a : ndarray elt) : Prop :=
  length (data a) = size_of (shape a).

Fixpoint shape_eqb (s t : list nat) : bool :=
  match s, t with
  | [], [] => true
  | a :: s', b :: t' => (a =? b) && shape_eqb s' t'
  | _, _ => false
  end.

(** The first [n] consecutive blocks of [sz] elements of [l]. *)
Fixpoint chunks {A : Type} (sz n : nat) (l : list A) : list (list A) :=
  match n with
  | 0 => []
  | S n' => firstn sz l :: chunks sz n' (skipn sz l)
  end.

Definition map2 {A B C : Type} (f : A -> B -> C) (l : list A) (m : list B) : list C :=
  map (fun p => f (fst p) (snd p)) (combine l m).

(** The per-image context: a mapping from names such as [scales] and
    [offsets] to arrays. *)
Definition Context (elt : Type) : Type := dict (ndarray elt).

(** A candidate's prediction record: head name, then value name, to array. *)
Definition Prediction (elt : Type) : Type := dict (dict (ndarray elt)).

Section Numpy.
Context {elt : Type} `{Scalar elt}.

(** [len(a)]: a zero-dimensional array has no length. *)
Definition len (a : ndarray elt) : result nat :=
  match shape a with
  | [] => Raise TypeError
  | n :: _ => Ok n
  end.

(** [a.shape[1:]] *)
Definition tail_shape_of (a : ndarray elt) : list nat := tl (shape a).

Definition np_zeros (s : list nat) : ndarray elt :=
  mk_ndarray s (repeat zero (size_of s)).

Definition np_ones (s : list nat) : ndarray elt :=
  mk_ndarray s (repeat one (size_of s)).

(** [-a] *)
Definition np_negative (a : ndarray elt) : ndarray elt :=
  mk_ndarray (shape a) (map neg (data a)).

(** [a.copy()] *)
Definition copy (a : ndarray elt) : ndarray elt :=
  mk_ndarray (shape a) (data a).

(** Does [b] have at least one axis, and the extents [tail] after it? *)
Definition joins (tail : list nat) (b : ndarray elt) : bool :=
  match shape b with
  | [] => false
  | _ :: tail_b => shape_eqb tail tail_b
  end.

(** [np.concatenate(arrays)], along the existing first axis: the arrays
    must have that axis and agree on all the others. *)
Definition np_concatenate (arrays : list (ndarray elt)) : result (ndarray elt) :=
  match arrays with
  | [] => Raise ValueError
  | a :: _ =>
      match shape a with
      | [] => Raise ValueError
      | _ :: tail =>
          if forallb (joins tail) arrays then
            Ok (mk_ndarray
                  (list_sum (map (fun b => hd 0 (shape b)) arrays) :: tail)
                  (concat (map data arrays)))
          else Raise ValueError
      end
  end.

(** [np.stack(arrays)], along a new first axis: the arrays must all have
    the same shape. *)
Definition np_stack (arrays : list (ndarray elt)) : result (ndarray elt) :=
  match arrays with
  | [] => Raise ValueError
  | a :: _ =>
      if forallb (fun b => shape_eqb (shape a) (shape b)) arrays then
        Ok (mk_ndarray (length arrays :: shape a) (concat (map data arrays)))
      else Raise ValueError
  end.

(** Iterating over an array yields [a[0]], [a[1]], ... *)
Definition iter (a : ndarray elt) : result (list (ndarray elt)) :=
  match shape a with
  | [] => Raise TypeError
  | n :: tail => Ok (map (mk_ndarray tail) (chunks (size_of tail) n (data a)))
  end.

(** *** Indexing one axis

    [a[j]], [a[:, j]] and [a[:, :, j]] pick index [j] on axis 0, 1 and 2. *)

Fixpoint remove_axis (ax : nat) (s : list nat) : list nat :=
  match s, ax with
  | [], _ => []
  | _ :: s', 0 => s'
  | n :: s', S ax' => n :: remove_axis ax' s'
  end.

Fixpoint select (ax j : nat) (s : list nat) (d : list elt) : list elt :=
  match s with
  | [] => d
  | n :: s' =>
      match ax with
      | 0 => firstn (size_of s') (skipn (j * size_of s') d)
      | S ax' => concat (map (select ax' j s') (chunks (size_of s') n d))
      end
  end.

Fixpoint replace (ax j : nat) (s : list nat) (d v : list elt) : list elt :=
  match s with
  | [] => d
  | n :: s' =>
      match ax with
      | 0 => firstn (j * size_of s') d ++ v ++ skipn (S j * size_of s') d
      | S ax' =>
          concat (map2 (replace ax' j s')
                       (chunks (size_of s') n d)
                       (chunks (size_of (remove_axis ax' s')) n v))
      end
  end.

(** Is [j] a valid index on axis [ax] of an array of shape [s]? *)
Definition in_bounds (ax j : nat) (s : list nat) : bool :=
  match nth_error s ax with
  | Some n => j <? n
  | None => false
  end.

Definition np_take (ax j : nat) (a : ndarray elt) : result (ndarray elt) :=
  if in_bounds ax j (shape a) then
    Ok (mk_ndarray (remove_axis ax (shape a)) (select ax j (shape a) (data a)))
  else Raise IndexError.

(** *** Broadcasting

    Shapes are aligned on their last axes; two extents are compatible when
    they are equal or one of them is 1. *)

Fixpoint broadcast_rev (s t : list nat) : option (list nat) :=
  match s, t with
  | [], _ => Some t
  | _, [] => Some s
  | a :: s', b :: t' =>
      match broadcast_rev s' t' with
      | None => None
      | Some r =>
          if a =? b then Some (a :: r)
          else if a =? 1 then Some (b :: r)
          else if b =? 1 then Some (a :: r)
          else None
      end
  end.

Definition broadcast_shapes (s t : list nat) : option (list nat) :=
  option_map (@rev nat) (broadcast_rev (rev s) (rev t)).

(** Can an array of shape [s] be broadcast to exactly the shape [t]? *)
Fixpoint stretches_rev (s t : list nat) : bool :=
  match s, t with
  | [], _ => true
  | _ :: _, [] => false
  | a :: s', b :: t' => ((a =? b) || (a =? 1)) && stretches_rev s' t'
  end.

Definition stretches (s t : list nat) : bool := stretches_rev (rev s) (rev t).

(** The elements of an array of shape [s] repeated to fill [t], the two
    shapes having the same number of axes. *)
Fixpoint expand (s t : list nat) (d : list elt) : list elt :=
  match s, t with
  | a :: s', b :: t' =>
      let blocks := map (expand s' t') (chunks (size_of s') a d) in
      if a =? b then concat blocks else concat (repeat (concat blocks) b)
  | _, _ => d
  end.

Definition broadcast_to (t : list nat) (a : ndarray elt) : list elt :=
  let s := repeat 1 (length t - length (shape a)) ++ shape a in
  expand s t (data a).

(** [a * b], [a + b]: elementwise on the common shape. *)
Definition np_binop (f : elt -> elt -> elt) (a b : ndarray elt) : result (ndarray elt) :=
  match broadcast_shapes (shape a) (shape b) with
  | None => Raise ValueError
  | Some s => Ok (mk_ndarray s (map2 f (broadcast_to s a) (broadcast_to s b)))
  end.

(** Assignment drops leading axes of extent 1 that the target does not
    have before broadcasting the value. *)
Fixpoint strip_ones (k : nat) (s : list nat) : list nat :=
  match k, s with
  | S k', 1 :: s' => strip_ones k' s'
  | _, _ => s
  end.

(** [a[.., j] = v] on axis [ax]; the result is the new content of [a]. *)
Definition np_put (ax j : nat) (a v : ndarray elt) : result (ndarray elt) :=
  if in_bounds ax j (shape a) then
    let target := remove_axis ax (shape a) in
    let sv := strip_ones (length (shape v) - length target) (shape v) in
    if stretches sv target then
      Ok (mk_ndarray (shape a)
            (replace ax j (shape a) (data a)
               (broadcast_to target (mk_ndarray sv (data v)))))
    else Raise ValueError
  else Raise IndexError.
End Numpy.

(** ** Calling the stages *)

Section Calls.
Context {elt : Type} `{Scalar elt}.

(** *** [ConcatenateOutputs.__call__] *)

(** [self.empty_shapes[name]]: subscripting [None] is a [TypeError]. *)
Definition empty_shape_of (self : ConcatenateOutputs) (name : string)
    : result (list nat) :=
  match empty_shapes self with
  | None => Raise TypeError
  | Some shapes => dict_getitem shapes name
  end.

(** [{name: np.zeros((0, *self.empty_shapes[name])) for name in names}] *)
Fixpoint empty_outputs (self : ConcatenateOutputs) (names : list string)
    (outputs : dict (ndarray elt)) : result (dict (ndarray elt)) :=
  match names with
  | [] => Ok outputs
  | name :: rest =>
      s <- empty_shape_of self name ;;
      empty_outputs self rest (dict_set outputs name (np_zeros (0 :: s)))
  end.

(** [p[head_name][val_name]] *)
Definition head_value (head_name val_name : string) (p : Prediction elt)
    : result (ndarray elt) :=
  head <- dict_getitem p head_name ;;
  dict_getitem head val_name.

Fixpoint concatenate_items (predictions : list (Prediction elt))
    (items : list (string * (string * string)))
    (outputs : dict (ndarray elt)) : result (dict (ndarray elt)) :=
  match items with
  | [] => Ok outputs
  | (output_name, (head_name, val_name)) :: rest =>
      arrays <- mapM (head_value head_name val_name) predictions ;;
      joined <- np_concatenate arrays ;;
      concatenate_items predictions rest (dict_set outputs output_name joined)
  end.

Definition ConcatenateOutputs_call (self : ConcatenateOutputs)
    (predictions : list (Prediction elt)) (context : Context elt)
    : result (dict (ndarray elt) * Context elt) :=
  if length predictions =? 0 then
    outputs <- empty_outputs self (dict_keys (keys_to_concatenate self)) [] ;;
    Ok (outputs, context)
  else
    outputs <- concatenate_items predictions (keys_to_concatenate self) [] ;;
    Ok (outputs, context).

(** *** [PadOutputs.__call__]

    The method assigns into the mapping it was given and returns that same
    mapping.  The loop therefore threads the content of the mapping, and a
    call yields its outcome together with the content the caller's mapping
    has when the call ends, whether it returns or raises. *)

Definition pad_one (self : PadOutputs) (name : string)
    (predictions : dict (ndarray elt)) : result (dict (ndarray elt)) :=
  output <- dict_getitem predictions name ;;
  n <- len output ;;
  target <- dict_getitem (max_individuals self) name ;;
  if n <? target then
    let pad_size := target - n in
    let tail_shape := tail_shape_of output in
    let padding := np_negative (np_ones (pad_size :: tail_shape)) in
    padded <- np_concatenate [output; padding] ;;
    Ok (dict_set predictions name padded)
  else Ok predictions.

Fixpoint pad_loop (self : PadOutputs) (names : list string)
    (predictions : dict (ndarray elt))
    : result unit * dict (ndarray elt) :=
  match names with
  | [] => (Ok tt, predictions)
  | name :: rest =>
      match pad_one self name predictions with
      | Ok predictions' => pad_loop self rest predictions'
      | Raise e => (Raise e, predictions)
      end
  end.

Definition PadOutputs_call (self : PadOutputs)
    (predictions : dict (ndarray elt)) (context : Context elt)
    : result (dict (ndarray elt) * Context elt) * dict (ndarray elt) :=
  let '(outcome, predictions') :=
    pad_loop self (dict_keys predictions) predictions in
  match outcome with
  | Ok _ => (Ok (predictions', context), predictions')
  | Raise e => (Raise e, predictions')
  end.

(** *** [RescaleAndOffset.__call__] *)

(** [rescaled[.., j] = outputs[.., j] * scales[i] + offsets[i]], the
    column [j] being taken on axis [ax]. *)
Definition scale_and_offset (ax j i : nat)
    (rescaled outputs scales offsets : ndarray elt) : result (ndarray elt) :=
  column <- np_take ax j outputs ;;
  s <- np_take 0 i scales ;;
  scaled <- np_binop mul column s ;;
  o <- np_take 0 i offsets ;;
  moved <- np_binop add scaled o ;;
  np_put ax j rescaled moved.

(** [rescaled[:, j] = outputs[:, j] * scales[i]] *)
Definition scale_only (j i : nat)
    (rescaled outputs scales : ndarray elt) : result (ndarray elt) :=
  column <- np_take 1 j outputs ;;
  s <- np_take 0 i scales ;;
  scaled <- np_binop mul column s ;;
  np_put 1 j rescaled scaled.

Definition rescale_bbox_xywh (outputs scales offsets : ndarray elt)
    : result (ndarray elt) :=
  let rescaled := copy outputs in
  rescaled <- scale_and_offset 1 0 0 rescaled outputs scales offsets ;;
  rescaled <- scale_and_offset 1 1 1 rescaled outputs scales offsets ;;
  rescaled <- scale_only 2 0 rescaled outputs scales ;;
  scale_only 3 1 rescaled outputs scales.

Definition rescale_keypoint (outputs scales offsets : ndarray elt)
    : result (ndarray elt) :=
  let rescaled := copy outputs in
  rescaled <- scale_and_offset 2 0 0 rescaled outputs scales offsets ;;
  scale_and_offset 2 1 1 rescaled outputs scales offsets.

(** The body of the loop over [zip(outputs, scales, offsets)]. *)
Definition rescale_individual (item : ndarray elt * ndarray elt * ndarray elt)
    : result (ndarray elt) :=
  let '(output, scale, offset) := item in
  let output_rescaled := copy output in
  output_rescaled <- scale_and_offset 1 0 0 output_rescaled output scale offset ;;
  scale_and_offset 1 1 1 output_rescaled output scale offset.

(** [len(outputs) == len(scales) == len(offsets)]: the third length is
    only taken when the first two agree. *)
Definition same_lengths (outputs scales offsets : ndarray elt) : result bool :=
  n <- len outputs ;;
  ns <- len scales ;;
  if n =? ns then
    no <- len offsets ;;
    Ok (ns =? no)
  else Ok false.

Definition rescale_keypoint_td (outputs scales offsets : ndarray elt)
    : result (ndarray elt) :=
  same <- same_lengths outputs scales offsets ;;
  if negb same then
    (* the message of the error formats the three lengths *)
    _ <- len outputs ;;
    _ <- len scales ;;
    _ <- len offsets ;;
    Raise ValueError
  else
    n <- len outputs ;;
    if n =? 0 then Ok outputs
    else
      os <- iter outputs ;;
      ss <- iter scales ;;
      fs <- iter offsets ;;
      rescaled_individuals <-
        mapM rescale_individual (combine (combine os ss) fs) ;;
      np_stack rescaled_individuals.

Definition rescale (m : Mode.t) (outputs scales offsets : ndarray elt)
    : result (ndarray elt) :=
  if Mode.eqb m Mode.BBOX_XYWH then rescale_bbox_xywh outputs scales offsets
  else if Mode.eqb m Mode.KEYPOINT then rescale_keypoint outputs scales offsets
  else rescale_keypoint_td outputs scales offsets.

Fixpoint rescale_items (self : RescaleAndOffset)
    (scales offsets : ndarray elt)
    (items : list (string * ndarray elt))
    (updated_predictions : dict (ndarray elt)) : result (dict (ndarray elt)) :=
  match items with
  | [] => Ok updated_predictions
  | (name, outputs) :: rest =>
      if list_contains (keys_to_rescale self) name then
        rescaled <- rescale (mode self) outputs scales offsets ;;
        rescale_items self scales offsets rest
          (dict_set updated_predictions name rescaled)
      else
        rescale_items self scales offsets rest
          (dict_set updated_predictions name (copy outputs))
  end.

(** The method only reads the mapping it was given: it builds its result
    in a mapping of its own.  As for [PadOutputs_call], the second
    component is the content of the caller's mapping when the call ends. *)
Definition RescaleAndOffset_call (self : RescaleAndOffset)
    (predictions : dict (ndarray elt)) (context : Context elt)
    : result (dict (ndarray elt) * Context elt) * dict (ndarray elt) :=
  if negb (dict_contains context "scales")
     && negb (dict_contains context "offsets")
  then (Ok (predictions, context), predictions)
  else
    (scales <- dict_getitem context "scales" ;;
     offsets <- dict_getitem context "offsets" ;;
     updated_predictions <- rescale_items self scales offsets predictions [] ;;
     Ok (updated_predictions, context),
     predictions).
End Calls.

(** ** Closed forms used in the statements *)

Section ClosedForms.
Context {elt : Type} `{Scalar elt}.

(** What [pad_one] leaves under a key whose target is [target]: the array
    itself, or the array followed by rows of [-1] up to [target] rows. *)
Definition padded (target : nat) (output : ndarray elt) : ndarray elt :=
  match shape output with
  | [] => output
  | n :: tail =>
      if n <? target then
        mk_ndarray (target :: tail)
          (data output ++ repeat (neg one) ((target - n) * size_of tail))
      else output
  end.

(** The array of shape [(N, 4)] whose rows are the given boxes. *)
Definition bbox_array (rows : list (elt * elt * elt * elt)) : ndarray elt :=
  mk_ndarray [length rows; 4]
    (concat (map (fun '(x, y, w, h) => [x; y; w; h]) rows)).

(** Following the words of the specification of [ConcatenateOutputs]: the
    per-candidate arrays of one output key, stacked along a new leading
    axis.  To be compared with what [concatenate_items] computes. *)
Definition stacked_per_candidate (head_name val_name : string)
    (predictions : list (Prediction elt)) : result (ndarray elt) :=
  arrays <- mapM (head_value head_name val_name) predictions ;;
  np_stack arrays.
End ClosedForms.

(** ** Sample stages and candidates *)

Definition poses_candidate (a : ndarray Z) : Prediction Z :=
  [("bodypart", [("poses", a)])].

Definition bodyparts_only : ConcatenateOutputs :=
  {| keys_to_concatenate := [("bodyparts", ("bodypart", "poses"))];
     empty_shapes := None;
     create_empty_outputs := false |}.

Definition top_down_rescale : RescaleAndOffset :=
  {| keys_to_rescale := ["bodyparts"]; mode := Mode.KEYPOINT_TD |}.

Definition detector_rescale : RescaleAndOffset :=
  {| keys_to_rescale := ["bboxes"]; mode := Mode.BBOX_XYWH |}.

(** ** The other stages, and composition *)

(** [BboxToCoco] subtracts; the subtraction of the element type is kept
    apart from the arithmetic the other stages use. *)
Class Subtraction (elt : Type) : Type := {
  sub : elt -> elt -> elt
}.

#[export] Instance Z_Subtraction : Subtraction Z := {
  sub := Z.sub
}.

(** What a stage receives as [predictions]: the list of per-candidate
    records the runner produces, or the mapping of output arrays a previous
    stage returned. *)
Inductive Predictions (elt : Type) : Type :=
| Candidates (records : list (Prediction elt))
| Outputs (arrays : dict (ndarray elt)).

Arguments Candidates {elt} records.
Arguments Outputs {elt} arrays.

Section OtherCalls.
Context {elt : Type} `{Scalar elt} `{Subtraction elt}.

(** *** [BboxToCoco.__call__]

    [predictions[bbox_key][:, j] -= predictions[bbox_key][:, i]]: the column
    is read, the other column is read, the difference is written into the
    array, in place. *)
Definition subtract_column (j i : nat) (bbox_key : string)
    (predictions : dict (ndarray elt)) : result (dict (ndarray elt)) :=
  boxes <- dict_getitem predictions bbox_key ;;
  column <- np_take 1 j boxes ;;
  boxes' <- dict_getitem predictions bbox_key ;;
  other <- np_take 1 i boxes' ;;
  difference <- np_binop sub column other ;;
  boxes <- np_put 1 j boxes difference ;;
  Ok (dict_set predictions bbox_key boxes).

Fixpoint to_coco_loop (bbox_keys : list string)
    (predictions : dict (ndarray elt))
    : result unit * dict (ndarray elt) :=
  match bbox_keys with
  | [] => (Ok tt, predictions)
  | bbox_key :: rest =>
      match subtract_column 2 0 bbox_key predictions with
      | Raise e => (Raise e, predictions)
      | Ok predictions1 =>
          match subtract_column 3 1 bbox_key predictions1 with
          | Raise e => (Raise e, predictions1)
          | Ok predictions2 => to_coco_loop rest predictions2
          end
      end
  end.

(** As for [PadOutputs_call]: the outcome, and the content of the caller's
    mapping when the call ends. *)
Definition BboxToCoco_call (self : BboxToCoco)
    (predictions : dict (ndarray elt)) (context : Context elt)
    : result (dict (ndarray elt) * Context elt) * dict (ndarray elt) :=
  let '(outcome, predictions') :=
    to_coco_loop (bounding_box_keys self) predictions in
  match outcome with
  | Ok _ => (Ok (predictions', context), predictions')
  | Raise e => (Raise e, predictions')
  end.

(** *** [AddContextToOutput.__call__] *)

Fixpoint add_context_loop (ks : list string) (context : Context elt)
    (predictions : dict (ndarray elt))
    : result unit * dict (ndarray elt) :=
  match ks with
  | [] => (Ok tt, predictions)
  | k :: rest =>
      if dict_contains context k then
        match dict_getitem context k with
        | Ok v => add_context_loop rest context (dict_set predictions k (copy v))
        | Raise e => (Raise e, predictions)
        end
      else add_context_loop rest context predictions
  end.

Definition AddContextToOutput_call (self : AddContextToOutput)
    (predictions : dict (ndarray elt)) (context : Context elt)
    : result (dict (ndarray elt) * Context elt) * dict (ndarray elt) :=
  let '(outcome, predictions') :=
    add_context_loop (keys self) context predictions in
  match outcome with
  | Ok _ => (Ok (predictions', context), predictions')
  | Raise e => (Raise e, predictions')
  end.

(** *** Calling a stage on whatever [predictions] is

    A stage written for a mapping can be handed a list, and the other way
    round.  A list subscripted by a string or by a record, and a string
    subscripted by a string, raise [TypeError]; a list has no [items]. *)

Definition as_outputs (r : result (dict (ndarray elt) * Context elt))
    : result (Predictions elt * Context elt) :=
  r' <- r ;; Ok (Outputs (fst r'), snd r').

Definition Postprocessor_call (stage : Postprocessor)
    (predictions : Predictions elt) (context : Context elt)
    : result (Predictions elt * Context elt) :=
  match stage, predictions with
  | Concatenate c, Candidates records =>
      as_outputs (ConcatenateOutputs_call c records context)
  | Concatenate c, Outputs [] =>
      as_outputs (ConcatenateOutputs_call c [] context)
  | Concatenate c, Outputs (_ :: _) =>
      (* iterating over a mapping yields its keys, which are strings *)
      match keys_to_concatenate c with
      | [] => Ok (Outputs [], context)
      | _ :: _ => Raise TypeError
      end
  | Rescale r, Outputs arrays =>
      as_outputs (fst (RescaleAndOffset_call r arrays context))
  | Rescale r, Candidates records =>
      if negb (dict_contains context "scales")
         && negb (dict_contains context "offsets")
      then Ok (Candidates records, context)
      else
        _ <- dict_getitem context "scales" ;;
        _ <- dict_getitem context "offsets" ;;
        Raise AttributeError
  | Pad p, Outputs arrays =>
      as_outputs (fst (PadOutputs_call p arrays context))
  | Pad p, Candidates [] => Ok (Candidates [], context)
  | Pad p, Candidates (_ :: _) => Raise TypeError
  | ToCoco b, Outputs arrays =>
      as_outputs (fst (BboxToCoco_call b arrays context))
  | ToCoco b, Candidates records =>
      match bounding_box_keys b with
      | [] => Ok (Candidates records, context)
      | _ :: _ => Raise TypeError
      end
  | AddContext a, Outputs arrays =>
      as_outputs (fst (AddContextToOutput_call a arrays context))
  | AddContext a, Candidates records =>
      if existsb (dict_contains context) (keys a) then Raise TypeError
      else Ok (Candidates records, context)
  end.

(** *** [ComposePostprocessor.__call__] *)

Fixpoint compose_loop (stages : list Postprocessor)
    (predictions : Predictions elt) (context : Context elt)
    : result (Predictions elt * Context elt) :=
  match stages with
  | [] => Ok (predictions, context)
  | postprocessor :: rest =>
      r <- Postprocessor_call postprocessor predictions context ;;
      compose_loop rest (fst r) (snd r)
  end.

Definition ComposePostprocessor_call (self : ComposePostprocessor)
    (predictions : Predictions elt) (context : Context elt)
    : result (Predictions elt * Context elt) :=
  compose_loop (components self) predictions context.
End OtherCalls.

(** ** Arrays of keypoints *)

Section KeypointArrays.
Context {elt : Type}.

(** A keypoint is [x], [y] and its trailing channels (the likelihood). *)
Definition channels (q : elt * elt * list elt) : list elt :=
  let '(x, y, t) := q in x :: y :: t.

(** The array of shape [(N, K, C)] holding, for each of [N] individuals,
    its [K] keypoints of [C] channels. *)
Definition keypoint_array (K C : nat)
    (individuals : list (list (elt * elt * list elt))) : ndarray elt :=
  mk_ndarray [length individuals; K; C]
    (concat (map (fun kps => concat (map channels kps)) individuals)).

(** The array of shape [(N, 2)] of [N] pairs. *)
Definition pair_array (pairs : list (elt * elt)) : ndarray elt :=
  mk_ndarray [length pairs; 2]
    (concat (map (fun p => [fst p; snd p]) pairs)).

(** Every individual has [K] rows, and [f] gives every row [c] elements. *)
Definition fills {Q : Type} (f : Q -> list elt) (c K : nat)
    (individuals : list (list Q)) : Prop :=
  Forall (fun kps => length kps = K /\
                     Forall (fun q => length (f q) = c) kps)
         individuals.

(** Every individual has [K] keypoints, every keypoint [C] channels. *)
Definition keypoints_fill (K C : nat)
    (individuals : list (list (elt * elt * list elt))) : Prop :=
  Forall (fun kps =>
            length kps = K /\
            Forall (fun q => length (channels q) = C) kps)
         individuals.
End KeypointArrays.

(** ** Video analysis: [apis/analyze_videos.py] *)

(** What interrupts the functions of that file: the exceptions above, a
    failed [assert], and the end of an iteration. *)
Inductive signal : Type :=
| Builtin (e : exn)
| AssertionError
| StopIteration.

Inductive outcome (A : Type) : Type :=
| Returns (a : A)
| Signals (s : signal).

Arguments Returns {A} a.
Arguments Signals {A} s.

(** The value given as [snapshot_index], or found in the configuration. *)
Inductive SnapshotIndex : Type :=
| IndexNone
| IndexInt (i : Z)
| IndexStr (s : string).

(** [l[i]] for a list and an integer: a negative index counts from the
    end. *)
Definition list_getitem {A : Type} (l : list A) (i : Z) : outcome A :=
  let n := Z.of_nat (length l) in
  let j := if (i <? 0)%Z then (i + n)%Z else i in
  if (j <? 0)%Z then Signals (Builtin IndexError)
  else
    match nth_error l (Z.to_nat j) with
    | Some a => Returns a
    | None => Signals (Builtin IndexError)
    end.

Section Snapshots.
Context {Path : Type}.

(** The body shared by [_get_model_path] and [_get_detector_path], on the
    list of snapshots found in the model folder. *)
Definition snapshot_path (trained_models : list Path)
    (snapshot_index : SnapshotIndex) (config : dict SnapshotIndex)
    : outcome Path :=
  match
    (match snapshot_index with
     | IndexNone =>
         match dict_get config "snapshotindex" with
         | Some v => Returns v
         | None => Signals (Builtin KeyError)
         end
     | _ => Returns snapshot_index
     end)
  with
  | Signals s => Signals s
  | Returns snapshot_index =>
      let snapshot_index :=
        match snapshot_index with
        | IndexStr s => if String.eqb s "all" then IndexInt (-1) else IndexStr s
        | _ => snapshot_index
        end in
      match snapshot_index with
      | IndexInt i => list_getitem trained_models i
      | _ => Signals AssertionError
      end
  end.

Definition _get_model_path := snapshot_path.

Definition _get_detector_path := snapshot_path.
End Snapshots.

(** [VideoIterator], over a reader of which only [read_frame] and [reset]
    are used. *)
Section Iterator.
Variables Reader Frame Ctx : Type.
Variable read_frame : Reader -> option Frame * Reader.
Variable reset : Reader -> Reader.

Record VideoIterator : Type := {
  video : Reader;
  _context : option (list Ctx);
  _index : nat
}.

(** [VideoIterator.__next__]: what it returns or raises, and the iterator
    afterwards. *)
Definition VideoIterator_next (self : VideoIterator)
    : outcome (Frame + Frame * Ctx) * VideoIterator :=
  let '(frame, video') := read_frame (video self) in
  match frame with
  | None =>
      (Signals StopIteration,
       {| video := reset video'; _context := _context self; _index := 0 |})
  | Some frame =>
      match _context self with
      | None =>
          (Returns (inl frame),
           {| video := video'; _context := None;
              _index := S (_index self) |})
      | Some contexts =>
          match nth_error contexts (_index self) with
          | None =>
              (Signals (Builtin IndexError),
               {| video := video'; _context := Some contexts;
                  _index := _index self |})
          | Some context =>
              (Returns (inr (frame, context)),
               {| video := video'; _context := Some contexts;
                  _index := S (_index self) |})
          end
      end
  end.

(** A [for] loop over the iterator, for at most [fuel] turns: the items it
    gets, what ended it if anything did, and the iterator afterwards. *)
Fixpoint VideoIterator_for (fuel : nat) (self : VideoIterator)
    : list (Frame + Frame * Ctx) * option signal * VideoIterator :=
  match fuel with
  | 0 => ([], None, self)
  | S fuel' =>
      match VideoIterator_next self with
      | (Returns item, self') =>
          let '(items, stop, self'') := VideoIterator_for fuel' self' in
          (item :: items, stop, self'')
      | (Signals s, self') => ([], Some s, self')
      end
  end.

(** The context an item came with. *)
Definition context_of (item : Frame + Frame * Ctx) : option Ctx :=
  match item with
  | inl _ => None
  | inr (_, context) => Some context
  end.
End Iterator.

Arguments video {Reader Ctx} v.
Arguments _context {Reader Ctx} v.
Arguments _index {Reader Ctx} v.
Arguments VideoIterator_next {Reader Frame Ctx} read_frame reset self.
Arguments VideoIterator_for {Reader Frame Ctx} read_frame reset fuel self.
Arguments context_of {Frame Ctx} item.

(** A reader over a list of frames: all the frames, and those not read
    yet. *)
Definition list_read_frame (r : list nat * list nat)
    : option nat * (list nat * list nat) :=
  match snd r with
  | [] => (None, r)
  | frame :: rest => (Some frame, (fst r, rest))
  end.

Definition list_reset (r : list nat * list nat) : list nat * list nat :=
  (fst r, fst r).

(** * Properties *)

(** ** Evaluation and dictionaries *)

Lemma bind_Ok {A B : Type} (m : result A) (k : A -> result B) (b : B) :
  bind m k = Ok b -> exists a, m = Ok a /\ k a = Ok b.
Proof.
  destruct m as [a|e]; simpl; intros E; [exists a; auto | discriminate].
Qed.

Lemma mapM_total {A B : Type} (f : A -> B) (l : list A) :
  mapM (fun x => Ok (f x)) l = Ok (map f l).
Proof.
  induction l as [|x l IH]; simpl; [reflexivity|].
  rewrite IH. reflexivity.
Qed.

Lemma dict_get_set_same {V : Type} (d : dict V) (k : string) (v : V) :
  dict_get (dict_set d k v) k = Some v.
Proof.
  induction d as [|[k' v'] d IH]; simpl.
  - rewrite String.eqb_refl. reflexivity.
  - destruct (String.eqb k' k) eqn:E; simpl; rewrite E; auto.
Qed.

Lemma dict_get_set_other {V : Type} (d : dict V) (k k0 : string) (v : V) :
  k <> k0 -> dict_get (dict_set d k v) k0 = dict_get d k0.
Proof.
  intros N. induction d as [|[k' v'] d IH]; simpl.
  - destruct (String.eqb_spec k k0); [contradiction | reflexivity].
  - destruct (String.eqb_spec k' k) as [->|N']; simpl.
    + destruct (String.eqb_spec k k0); [contradiction | reflexivity].
    + destruct (String.eqb k' k0); auto.
Qed.

Lemma dict_get_In {V : Type} (d : dict V) (k : string) (v : V) :
  dict_get d k = Some v -> In (k, v) d.
Proof.
  induction d as [|[k' v'] d IH]; simpl; [discriminate|].
  destruct (String.eqb_spec k' k) as [->|N]; intros E.
  - injection E as ->. now left.
  - right. auto.
Qed.

Lemma dict_get_keys {V : Type} (d : dict V) (k : string) :
  In k (dict_keys d) -> exists v, dict_get d k = Some v.
Proof.
  induction d as [|[k' v'] d IH]; simpl; [contradiction|].
  destruct (String.eqb_spec k' k) as [->|N]; intros [E|I].
  - eauto.
  - eauto.
  - contradiction.
  - auto.
Qed.

Lemma dict_get_Some_keys {V : Type} (d : dict V) (k : string) (v : V) :
  dict_get d k = Some v -> In k (dict_keys d).
Proof.
  intros E. apply dict_get_In in E. apply (in_map fst) in E. exact E.
Qed.

Lemma dict_get_None_keys {V : Type} (d : dict V) (k : string) :
  dict_get d k = None -> ~ In k (dict_keys d).
Proof.
  intros E I. destruct (dict_get_keys d k I) as [v E']. congruence.
Qed.

Lemma dict_keys_set_present {V : Type} (d : dict V) (k : string) (v : V) :
  In k (dict_keys d) -> dict_keys (dict_set d k v) = dict_keys d.
Proof.
  induction d as [|[k' v'] d IH]; simpl; [contradiction|].
  destruct (String.eqb_spec k' k) as [->|N]; intros [E|I]; simpl.
  - reflexivity.
  - reflexivity.
  - contradiction.
  - now rewrite IH.
Qed.

Lemma dict_set_fresh {V : Type} (d : dict V) (k : string) (v : V) :
  ~ In k (dict_keys d) -> dict_set d k v = d ++ [(k, v)].
Proof.
  induction d as [|[k' v'] d IH]; simpl; [reflexivity|].
  intros N. destruct (String.eqb_spec k' k) as [->|N'].
  - exfalso. apply N. now left.
  - rewrite IH; [reflexivity|]. intros I. apply N. now right.
Qed.

(** ** The builders *)

(** The constructor of the concatenation stage accepts what the top-down
    builder passes when there are unique bodyparts: there the shape of
    [unique_bodyparts] is added to the mapping of empty shapes. *)
Lemma top_down_empty_shapes_accepted (num_bodyparts num_unique_bodyparts : nat) :
  exists c,
    ConcatenateOutputs_init
      (dict_set [("bodyparts", ("bodypart", "poses"))]
                "unique_bodyparts" ("unique_bodypart", "poses"))
      (Some (dict_set [("bodyparts", [num_bodyparts; 3])]
                      "unique_bodyparts" [num_unique_bodyparts; 3]))
      true = Ok c.
Proof.
  eexists. reflexivity.
Qed.

(** C1.  With [num_unique_bodyparts > 0] the bottom-up builder does not
    return a pipeline: the mapping of empty shapes it hands to
    [ConcatenateOutputs] holds the entry of [bodyparts] only, so the
    constructor of that stage raises [ValueError]. *)
Theorem build_bottom_up_unique_bodyparts_raises :
  forall max_individuals num_bodyparts num_unique_bodyparts : nat,
    0 < num_unique_bodyparts ->
    build_bottom_up_postprocessor
      max_individuals num_bodyparts num_unique_bodyparts = Raise ValueError.
Proof.
  intros mi nb nu Hpos.
  unfold build_bottom_up_postprocessor.
  apply Nat.ltb_lt in Hpos. rewrite Hpos.
  reflexivity.
Qed.

Lemma build_bottom_up_unique_bodyparts_raises_witness :
  0 < 1 /\ build_bottom_up_postprocessor 4 5 1 = Raise ValueError.
Proof.
  split.
  - lia.
  - apply (build_bottom_up_unique_bodyparts_raises 4 5 1). lia.
Defined.

(** Without unique bodyparts the first stage is built, and the builder then
    fails on the name [DataType], which the class [RescaleAndOffset] does
    not define. *)
Lemma build_bottom_up_no_unique_bodyparts_raises (max_individuals num_bodyparts : nat) :
  build_bottom_up_postprocessor max_individuals num_bodyparts 0
  = Raise AttributeError.
Proof.
  reflexivity.
Qed.

(** C2.  The detector builder does not return a pipeline: once the first two
    stages are built it looks up [RescaleAndOffset.DataType], a name the
    class does not define, and raises [AttributeError]. *)
Theorem build_detector_postprocessor_raises :
  build_detector_postprocessor = Raise AttributeError.
Proof.
  reflexivity.
Qed.

(** The keyword [data] would not be accepted either: the parameters of the
    constructor are [keys_to_rescale] and [mode]. *)
Lemma RescaleAndOffset_init_rejects_data (l : list string) (m : Mode.t) :
  RescaleAndOffset_init [("keys_to_rescale", Keys l); ("data", ModeValue m)]
  = Raise TypeError.
Proof.
  reflexivity.
Qed.

Lemma RescaleAndOffset_init_accepts_mode (l : list string) (m : Mode.t) :
  RescaleAndOffset_init [("keys_to_rescale", Keys l); ("mode", ModeValue m)]
  = Ok {| keys_to_rescale := l; mode := m |}.
Proof.
  reflexivity.
Qed.

(** ** [ConcatenateOutputs] on an empty list of candidates *)

Section EmptyCandidates.
Context {elt : Type} `{Scalar elt}.

Lemma init_create_empty (kc : dict (string * string))
    (es : option (dict (list nat))) (self : ConcatenateOutputs) :
  ConcatenateOutputs_init kc es true = Ok self ->
  self = {| keys_to_concatenate := kc; empty_shapes := es;
            create_empty_outputs := true |} /\
  forall name, In name (dict_keys kc) ->
    exists shapes s, es = Some shapes /\ dict_get shapes name = Some s.
Proof.
  unfold ConcatenateOutputs_init. intros E.
  apply bind_Ok in E. destruct E as [found [Efound E]].
  destruct (forallb (fun b : bool => b) found) eqn:Eall; simpl in E;
    [|discriminate].
  injection E as <-. split; [reflexivity|].
  destruct es as [shapes|].
  - unfold shapes_contain in Efound. rewrite mapM_total in Efound.
    injection Efound as <-.
    intros name I. rewrite forallb_forall in Eall.
    specialize (Eall (dict_contains shapes name) (in_map _ _ _ I)).
    unfold dict_contains in Eall.
    destruct (dict_get shapes name) as [s|] eqn:Es; [|discriminate].
    eauto.
  - destruct (dict_keys kc) as [|k ks]; simpl in *; [contradiction|discriminate].
Qed.

Lemma empty_outputs_spec (self : ConcatenateOutputs) (shapes : dict (list nat))
    (names : list string) :
  empty_shapes self = Some shapes ->
  (forall name, In name names -> exists s, dict_get shapes name = Some s) ->
  forall acc : dict (ndarray elt),
  exists outputs,
    empty_outputs self names acc = Ok outputs /\
    (forall name s, In name names -> dict_get shapes name = Some s ->
       dict_get outputs name = Some (mk_ndarray (0 :: s) [])) /\
    (forall name, ~ In name names -> dict_get outputs name = dict_get acc name).
Proof.
  intros Es. induction names as [|n names IH]; intros Hall acc.
  - exists acc. simpl. repeat split; auto. intros ? ? [].
  - destruct (Hall n (or_introl eq_refl)) as [sn Hn].
    destruct (IH (fun k I => Hall k (or_intror I))
                 (dict_set acc n (np_zeros (0 :: sn))))
      as [outputs [E [Hin Hout]]].
    exists outputs. simpl. unfold empty_shape_of at 1. rewrite Es.
    unfold dict_getitem. rewrite Hn. simpl. split; [exact E|]. split.
    + intros name s I Hs.
      destruct (in_dec string_dec name names) as [I'|N]; [now apply Hin|].
      destruct I as [->|I]; [|contradiction].
      rewrite (Hout _ N), dict_get_set_same.
      replace s with sn by congruence. reflexivity.
    + intros name N. rewrite Hout by tauto.
      apply dict_get_set_other. intros ->. apply N. now left.
Qed.

(** C4.  A [ConcatenateOutputs] built with [create_empty_outputs=True]
    (so that the constructor found a declared shape for every configured
    key), applied to an empty list of candidates, returns for every
    configured key an array of shape [(0, *declared_shape)], and returns
    the context it was given. *)
Theorem concatenate_empty_candidates :
  forall (kc : dict (string * string)) (es : option (dict (list nat)))
         (self : ConcatenateOutputs) (context : Context elt),
    ConcatenateOutputs_init kc es true = Ok self ->
    exists outputs,
      ConcatenateOutputs_call self [] context = Ok (outputs, context) /\
      forall name, In name (dict_keys kc) ->
        exists shapes s a,
          es = Some shapes /\ dict_get shapes name = Some s /\
          dict_get outputs name = Some a /\
          shape a = 0 :: s /\ data a = [].
Proof.
  intros kc es self context E.
  apply init_create_empty in E. destruct E as [-> Hall].
  unfold ConcatenateOutputs_call. simpl.
  destruct es as [shapes|].
  - destruct (empty_outputs_spec
                {| keys_to_concatenate := kc; empty_shapes := Some shapes;
                   create_empty_outputs := true |} shapes (dict_keys kc)
                eq_refl) with (acc := @nil (string * ndarray elt))
      as [outputs [E [Hin _]]].
    + intros name I. destruct (Hall name I) as [sh [s [Esh Hs]]].
      injection Esh as <-. eauto.
    + exists outputs. rewrite E. simpl. split; [reflexivity|].
      intros name I. destruct (Hall name I) as [sh [s [Esh Hs]]].
      injection Esh as <-.
      exists shapes, s, (mk_ndarray (0 :: s) []). auto using Hin.
  - destruct (dict_keys kc) as [|k ks] eqn:Ek.
    + exists []. simpl. split; [reflexivity|]. intros ? [].
    + destruct (Hall k (or_introl eq_refl)) as [sh [s [Esh _]]]. discriminate.
Qed.

(** C10 (as amended).  A [ConcatenateOutputs] with at least one configured
    key, built with the defaults [empty_shapes=None] and
    [create_empty_outputs=False], is constructed without error, and
    applying it to an empty list of candidates raises [TypeError]: the
    branch for an empty list does not look at the flag and subscripts the
    absent mapping. *)
Theorem concatenate_defaults_empty_candidates_raise :
  forall (kc : dict (string * string)) (context : Context elt),
    kc <> [] ->
    exists self,
      ConcatenateOutputs_init kc None false = Ok self /\
      ConcatenateOutputs_call self [] context = Raise TypeError.
Proof.
  intros kc context N. eexists. split; [reflexivity|].
  destruct kc as [|[name hv] kc]; [contradiction|]. reflexivity.
Qed.
End EmptyCandidates.

(** The detector builder's first stage is such a stage. *)
Lemma concatenate_defaults_empty_candidates_raise_witness :
  [("bboxes", ("detection", "bboxes")); ("bbox_scores", ("detection", "scores"))]
    <> [] /\
  exists self,
    ConcatenateOutputs_init
      [("bboxes", ("detection", "bboxes")); ("bbox_scores", ("detection", "scores"))]
      None false = Ok self /\
    ConcatenateOutputs_call self [] ([] : Context Z) = Raise TypeError.
Proof.
  split.
  - discriminate.
  - apply (concatenate_defaults_empty_candidates_raise
             [("bboxes", ("detection", "bboxes"));
              ("bbox_scores", ("detection", "scores"))] []).
    discriminate.
Defined.

(** C10 (as stated) fails for a stage with no configured key: the
    comprehension over the keys is empty, nothing is subscripted, and the
    call returns an empty mapping. *)
Lemma concatenate_defaults_no_key_returns :
  ConcatenateOutputs_init [] None false
  = Ok {| keys_to_concatenate := []; empty_shapes := None;
          create_empty_outputs := false |} /\
  ConcatenateOutputs_call
    {| keys_to_concatenate := []; empty_shapes := None;
       create_empty_outputs := false |} [] ([] : Context Z)
  = Ok ([], []).
Proof.
  split; reflexivity.
Qed.

Lemma concatenate_empty_candidates_witness :
  ConcatenateOutputs_init
    [("bodyparts", ("bodypart", "poses"))]
    (Some [("bodyparts", [5; 3])]) true
  = Ok {| keys_to_concatenate := [("bodyparts", ("bodypart", "poses"))];
          empty_shapes := Some [("bodyparts", [5; 3])];
          create_empty_outputs := true |} /\
  exists outputs,
    ConcatenateOutputs_call
      {| keys_to_concatenate := [("bodyparts", ("bodypart", "poses"))];
         empty_shapes := Some [("bodyparts", [5; 3])];
         create_empty_outputs := true |} [] ([] : Context Z)
    = Ok (outputs, []) /\
    forall name, In name (dict_keys [("bodyparts", ("bodypart", "poses"))]) ->
      exists shapes s a,
        Some [("bodyparts", [5; 3])] = Some shapes /\
        dict_get shapes name = Some s /\
        dict_get outputs name = Some a /\
        shape a = 0 :: s /\ data a = [].
Proof.
  split.
  - reflexivity.
  - apply (concatenate_empty_candidates
             [("bodyparts", ("bodypart", "poses"))]
             (Some [("bodyparts", [5; 3])]) _ []).
    reflexivity.
Defined.

(** ** [PadOutputs] *)

Lemma shape_eqb_refl (s : list nat) : shape_eqb s s = true.
Proof.
  induction s as [|a s IH]; simpl; [reflexivity|].
  now rewrite Nat.eqb_refl, IH.
Qed.

Lemma shape_eqb_eq (s t : list nat) : shape_eqb s t = true -> s = t.
Proof.
  revert t. induction s as [|a s IH]; intros [|b t]; simpl; try discriminate.
  - reflexivity.
  - intros E. apply andb_prop in E. destruct E as [Eab Est].
    apply Nat.eqb_eq in Eab. f_equal; auto.
Qed.

Lemma map_repeat {A B : Type} (f : A -> B) (x : A) (n : nat) :
  map f (repeat x n) = repeat (f x) n.
Proof.
  induction n as [|n IH]; simpl; [reflexivity|]. now rewrite IH.
Qed.

Section Padding.
Context {elt : Type} `{Scalar elt}.

Lemma padded_shape (target : nat) (output : ndarray elt) (n : nat) (tail : list nat) :
  shape output = n :: tail ->
  shape (padded target output) = Nat.max n target :: tail.
Proof.
  intros E. unfold padded. rewrite E.
  destruct (Nat.ltb_spec n target); simpl.
  - f_equal. lia.
  - rewrite E. f_equal. lia.
Qed.

Lemma padded_idempotent (target : nat) (output : ndarray elt) :
  padded target (padded target output) = padded target output.
Proof.
  destruct (shape output) as [|n tail] eqn:E.
  - unfold padded. rewrite E. unfold padded. now rewrite E.
  - destruct (n <? target) eqn:L.
    + unfold padded. rewrite E, L. simpl. now rewrite Nat.ltb_irrefl.
    + unfold padded. rewrite E, L, E, L. reflexivity.
Qed.

(** [np.concatenate([output, -np.ones((pad_size, *tail_shape))])] *)
Lemma concatenate_padding (output : ndarray elt) (n pad_size : nat) (tail : list nat) :
  shape output = n :: tail ->
  np_concatenate [output; np_negative (np_ones (pad_size :: tail_shape_of output))]
  = Ok (mk_ndarray ((n + pad_size) :: tail)
          (data output ++ repeat (neg one) (pad_size * size_of tail))).
Proof.
  intros E. unfold np_concatenate, tail_shape_of. rewrite E. simpl.
  unfold joins. rewrite E. simpl. rewrite shape_eqb_refl. simpl.
  rewrite map_repeat, app_nil_r, Nat.add_0_r. reflexivity.
Qed.

Lemma pad_one_spec (self : PadOutputs) (name : string)
    (predictions : dict (ndarray elt)) (output : ndarray elt) (target : nat) :
  dict_get predictions name = Some output ->
  shape output <> [] ->
  dict_get (max_individuals self) name = Some target ->
  exists predictions',
    pad_one self name predictions = Ok predictions' /\
    dict_get predictions' name = Some (padded target output) /\
    (forall k, k <> name -> dict_get predictions' k = dict_get predictions k) /\
    dict_keys predictions' = dict_keys predictions.
Proof.
  intros Eo Ns Et.
  destruct (shape output) as [|n tail] eqn:Es; [contradiction|].
  unfold pad_one, dict_getitem. rewrite Eo. cbn [bind].
  unfold len. rewrite Es. cbn [bind]. rewrite Et. cbn [bind].
  unfold padded. rewrite Es.
  destruct (Nat.ltb_spec n target) as [Lt|Ge].
  - rewrite (concatenate_padding output n (target - n) tail Es). cbn [bind].
    replace (n + (target - n)) with target by lia.
    eexists. split; [reflexivity|]. split; [apply dict_get_set_same|]. split.
    + intros k Nk. apply dict_get_set_other. congruence.
    + apply dict_keys_set_present. exact (dict_get_Some_keys _ _ _ Eo).
  - exists predictions. auto.
Qed.

(** The loop succeeds when every key it visits is configured and holds an
    array with a first axis; each visited key then holds its array padded
    to the key's target, and no other key is touched. *)
Lemma pad_loop_spec (self : PadOutputs) (names : list string) :
  forall predictions : dict (ndarray elt),
    (forall name, In name names ->
       exists output target,
         dict_get predictions name = Some output /\ shape output <> [] /\
         dict_get (max_individuals self) name = Some target) ->
    exists final,
      pad_loop self names predictions = (Ok tt, final) /\
      dict_keys final = dict_keys predictions /\
      (forall name output target,
         In name names ->
         dict_get predictions name = Some output ->
         dict_get (max_individuals self) name = Some target ->
         dict_get final name = Some (padded target output)) /\
      (forall name, ~ In name names ->
         dict_get final name = dict_get predictions name).
Proof.
  induction names as [|name names IH]; intros predictions Hall.
  - exists predictions. simpl. repeat split; auto. intros ? ? ? [].
  - destruct (Hall name (or_introl eq_refl)) as [output [target [Eo [Ns Et]]]].
    destruct (pad_one_spec self name predictions output target Eo Ns Et)
      as [p1 [E1 [Gname [Gother Keys1]]]].
    destruct (IH p1) as [final [Eloop [Kf [Hin Hout]]]].
    { intros k I. destruct (string_dec k name) as [->|Nk].
      - exists (padded target output), target. split; [exact Gname|].
        split; [|exact Et].
        destruct (shape output) as [|n tail] eqn:Es; [contradiction|].
        rewrite (padded_shape target output n tail Es). discriminate.
      - destruct (Hall k (or_intror I)) as [o [t [Ek [Nk' Etk]]]].
        exists o, t. rewrite (Gother k Nk). auto. }
    exists final. simpl. rewrite E1. split; [exact Eloop|].
    split; [congruence|]. split.
    + intros k o t I Ek Etk.
      destruct (in_dec string_dec k names) as [I'|N'].
      * destruct (string_dec k name) as [->|Nk].
        -- rewrite (Hin name (padded target output) target I' Gname Et).
           rewrite padded_idempotent. congruence.
        -- apply Hin; auto. now rewrite (Gother k Nk).
      * destruct I as [<-|I]; [|contradiction].
        rewrite (Hout name N'), Gname. congruence.
    + intros k N. rewrite Hout by tauto.
      apply Gother. intros ->. apply N. now left.
Qed.

(** The loop changes nothing when every key it visits is already at or
    above its target. *)
Lemma pad_loop_at_target (self : PadOutputs) (predictions : dict (ndarray elt))
    (names : list string) :
  (forall name, In name names ->
     exists output n tail target,
       dict_get predictions name = Some output /\ shape output = n :: tail /\
       dict_get (max_individuals self) name = Some target /\ target <= n) ->
  pad_loop self names predictions = (Ok tt, predictions).
Proof.
  induction names as [|name names IH]; intros Hall; [reflexivity|].
  destruct (Hall name (or_introl eq_refl))
    as [output [n [tail [target [Eo [Es [Et Le]]]]]]].
  simpl. unfold pad_one, dict_getitem, len. rewrite Eo. simpl.
  rewrite Es. simpl. rewrite Et. simpl.
  destruct (Nat.ltb_spec n target); [lia|].
  apply IH. intros k I. apply Hall. now right.
Qed.

(** C7.  When every key of the mapping is configured (and holds an array
    with a first axis), [PadOutputs] returns; a key whose target is 0 or
    whose first extent is at or above its target keeps its array; a key
    below its target holds its former elements followed by
    [target - current] rows of padding, under the same trailing shape;
    and a second application returns the same mapping. *)
Theorem pad_outputs_no_truncation_idempotent :
  forall (self : PadOutputs) (predictions : dict (ndarray elt))
         (context : Context elt),
    (forall name output,
       dict_get predictions name = Some output ->
       shape output <> [] /\
       exists target, dict_get (max_individuals self) name = Some target) ->
    exists once,
      PadOutputs_call self predictions context = (Ok (once, context), once) /\
      (forall name output n tail target,
         dict_get predictions name = Some output ->
         shape output = n :: tail ->
         dict_get (max_individuals self) name = Some target ->
         (target = 0 \/ target <= n -> dict_get once name = Some output) /\
         (n < target ->
          dict_get once name =
            Some (mk_ndarray (target :: tail)
                    (data output ++
                     repeat (neg one) ((target - n) * size_of tail))))) /\
      PadOutputs_call self once context = (Ok (once, context), once).
Proof.
  intros self predictions context Hall.
  destruct (pad_loop_spec self (dict_keys predictions) predictions)
    as [once [Eloop [Keys1 [Hin _]]]].
  { intros name I. destruct (dict_get_keys predictions name I) as [o Eo].
    destruct (Hall name o Eo) as [Ns [t Et]]. eauto. }
  assert (Hin' : forall name output target,
             dict_get predictions name = Some output ->
             dict_get (max_individuals self) name = Some target ->
             dict_get once name = Some (padded target output)).
  { intros name o t Eo Et. apply Hin; auto.
    exact (dict_get_Some_keys _ _ _ Eo). }
  exists once. unfold PadOutputs_call. rewrite Eloop.
  split; [reflexivity|]. split.
  - intros name o n tail t Eo Es Et.
    rewrite (Hin' name o t Eo Et). unfold padded. rewrite Es. split.
    + intros Le. destruct (Nat.ltb_spec n t); [lia | reflexivity].
    + intros Lt. destruct (Nat.ltb_spec n t); [reflexivity | lia].
  - rewrite pad_loop_at_target; [reflexivity|].
    intros name I. rewrite Keys1 in I.
    destruct (dict_get_keys predictions name I) as [o Eo].
    destruct (Hall name o Eo) as [Ns [t Et]].
    destruct (shape o) as [|n tail] eqn:Es; [contradiction|].
    exists (padded t o), (Nat.max n t), tail, t.
    split; [now apply Hin'|]. split; [now apply padded_shape|].
    split; [exact Et | lia].
Qed.

(** Whatever the outcome, the loop leaves the keys without a target as
    they were in the caller's mapping. *)
Lemma pad_loop_frame (self : PadOutputs) (names : list string) :
  forall (predictions : dict (ndarray elt)) (k : string),
    dict_get (max_individuals self) k = None ->
    dict_get (snd (pad_loop self names predictions)) k
    = dict_get predictions k.
Proof.
  induction names as [|name names IH]; intros predictions k Ek;
    [reflexivity|].
  simpl. destruct (pad_one self name predictions) as [p1|e] eqn:E1;
    [|reflexivity].
  rewrite IH by exact Ek.
  unfold pad_one in E1.
  apply bind_Ok in E1. destruct E1 as [output [_ E1]].
  apply bind_Ok in E1. destruct E1 as [n [_ E1]].
  apply bind_Ok in E1. destruct E1 as [target [Et E1]].
  destruct (n <? target).
  - apply bind_Ok in E1. destruct E1 as [v [_ E1]]. injection E1 as <-.
    apply dict_get_set_other. intros ->.
    unfold dict_getitem in Et. rewrite Ek in Et. discriminate.
  - injection E1 as <-. reflexivity.
Qed.

Lemma pad_loop_unconfigured (self : PadOutputs) (names : list string) :
  forall predictions : dict (ndarray elt),
    (forall k a, dict_get predictions k = Some a -> shape a <> []) ->
    (forall name, In name names -> In name (dict_keys predictions)) ->
    (exists name, In name names /\
                  dict_get (max_individuals self) name = None) ->
    fst (pad_loop self names predictions) = Raise KeyError.
Proof.
  induction names as [|name names IH];
    intros predictions Hshape Hkeys [bad [Ibad Ebad]]; [contradiction|].
  destruct (dict_get_keys predictions name (Hkeys name (or_introl eq_refl)))
    as [output Eo].
  pose proof (Hshape name output Eo) as Ns.
  simpl. destruct (dict_get (max_individuals self) name) as [target|] eqn:Et.
  - destruct (pad_one_spec self name predictions output target Eo Ns Et)
      as [p1 [E1 [Gname [Gother Keys1]]]].
    rewrite E1. apply IH.
    + intros k a Ek. destruct (string_dec k name) as [->|Nk].
      * rewrite Gname in Ek. injection Ek as <-.
        destruct (shape output) as [|n tail] eqn:Es; [contradiction|].
        rewrite (padded_shape target output n tail Es). discriminate.
      * rewrite (Gother k Nk) in Ek. eauto.
    + intros k I. rewrite Keys1. apply Hkeys. now right.
    + exists bad. split; [|exact Ebad].
      destruct Ibad as [<-|I]; [congruence | exact I].
  - unfold pad_one, dict_getitem. rewrite Eo. cbn [bind].
    destruct (shape output) as [|n tail] eqn:Es; [contradiction|].
    unfold len. rewrite Es. cbn [bind]. rewrite Et. reflexivity.
Qed.

(** C8 (as amended).  A key of the mapping that [max_individuals] does not
    configure is left as it was in the mapping, and so is every such key,
    but the call does not succeed: looking up the key's target raises
    [KeyError] (every array of the mapping having a first axis). *)
Theorem pad_outputs_unconfigured_key :
  forall (self : PadOutputs) (predictions : dict (ndarray elt))
         (context : Context elt) (name : string) (output : ndarray elt),
    dict_get predictions name = Some output ->
    dict_get (max_individuals self) name = None ->
    (forall k a, dict_get predictions k = Some a -> shape a <> []) ->
    fst (PadOutputs_call self predictions context) = Raise KeyError /\
    forall k,
      dict_get (max_individuals self) k = None ->
      dict_get (snd (PadOutputs_call self predictions context)) k
      = dict_get predictions k.
Proof.
  intros self predictions context name output Eo En Hshape.
  pose proof (pad_loop_unconfigured self (dict_keys predictions) predictions
                Hshape (fun _ I => I)) as Hraise.
  pose proof (pad_loop_frame self (dict_keys predictions) predictions)
    as Hframe.
  unfold PadOutputs_call.
  destruct (pad_loop self (dict_keys predictions) predictions)
    as [outcome final].
  simpl in Hraise, Hframe. rewrite Hraise.
  - split; [reflexivity | exact Hframe].
  - exists name. split; [exact (dict_get_Some_keys _ _ _ Eo) | exact En].
Qed.
End Padding.

(** C6.  The pad value given at construction is not the value of the
    appended rows: whatever it is, a one-row array padded to two rows gets
    a row of [-1]. *)
Theorem pad_outputs_pads_with_minus_one :
  forall v : Z,
    PadOutputs_call
      {| max_individuals := [("bodyparts", 2)]; pad_value := v |}
      [("bodyparts", mk_ndarray [1; 2] [7; 8]%Z)] []
    = (Ok ([("bodyparts", mk_ndarray [2; 2] [7; 8; -1; -1]%Z)], []),
       [("bodyparts", mk_ndarray [2; 2] [7; 8; -1; -1]%Z)]).
Proof.
  intros v. reflexivity.
Qed.

(** No call depends on the pad value. *)
Lemma pad_outputs_pad_value_unused {elt : Type} `{Scalar elt}
    (targets : dict nat) (v w : Z)
    (predictions : dict (ndarray elt)) (context : Context elt) :
  PadOutputs_call {| max_individuals := targets; pad_value := v |}
    predictions context
  = PadOutputs_call {| max_individuals := targets; pad_value := w |}
      predictions context.
Proof.
  unfold PadOutputs_call.
  assert (E : forall names d,
             pad_loop {| max_individuals := targets; pad_value := v |} names d
             = pad_loop {| max_individuals := targets; pad_value := w |} names d).
  { induction names as [|name names IH]; intros d; [reflexivity|].
    simpl. change (pad_one {| max_individuals := targets; pad_value := v |} name d)
      with (pad_one {| max_individuals := targets; pad_value := w |} name d).
    destruct (pad_one _ name d); [apply IH | reflexivity]. }
  now rewrite E.
Qed.

(** C8 (as stated) fails: with [extra] not configured the call raises. *)
Lemma pad_outputs_unconfigured_key_fails :
  fst (PadOutputs_call
         {| max_individuals := [("bodyparts", 2)]; pad_value := (-1)%Z |}
         [("bodyparts", mk_ndarray [2; 1] [7; 8]%Z);
          ("extra", mk_ndarray [1] [5]%Z)] [])
  = Raise KeyError.
Proof.
  reflexivity.
Qed.

Lemma pad_outputs_unconfigured_key_witness :
  fst (PadOutputs_call
         {| max_individuals := [("bodyparts", 2)]; pad_value := (-1)%Z |}
         [("bodyparts", mk_ndarray [1; 1] [7]%Z);
          ("extra", mk_ndarray [1] [5]%Z)] [])
  = Raise KeyError /\
  forall k,
    dict_get [("bodyparts", 2)] k = None ->
    dict_get
      (snd (PadOutputs_call
              {| max_individuals := [("bodyparts", 2)]; pad_value := (-1)%Z |}
              [("bodyparts", mk_ndarray [1; 1] [7]%Z);
               ("extra", mk_ndarray [1] [5]%Z)] [])) k
    = dict_get [("bodyparts", mk_ndarray [1; 1] [7]%Z);
                ("extra", mk_ndarray [1] [5]%Z)] k.
Proof.
  apply (pad_outputs_unconfigured_key
           {| max_individuals := [("bodyparts", 2)]; pad_value := (-1)%Z |}
           [("bodyparts", mk_ndarray [1; 1] [7]%Z);
            ("extra", mk_ndarray [1] [5]%Z)] []
           "extra" (mk_ndarray [1] [5]%Z)).
  - reflexivity.
  - reflexivity.
  - intros k a. cbn [dict_get].
    destruct (String.eqb "bodyparts" k);
      [intros E; injection E as <-; discriminate|].
    destruct (String.eqb "extra" k);
      [intros E; injection E as <-; discriminate | discriminate].
Defined.

Lemma pad_outputs_no_truncation_idempotent_witness :
  exists once,
    PadOutputs_call
      {| max_individuals := [("bodyparts", 3); ("unique_bodyparts", 0)];
         pad_value := (-1)%Z |}
      [("bodyparts", mk_ndarray [1; 2] [7; 8]%Z);
       ("unique_bodyparts", mk_ndarray [1; 1] [5]%Z)] []
    = (Ok (once, []), once) /\
    dict_get once "bodyparts"
    = Some (mk_ndarray [3; 2] [7; 8; -1; -1; -1; -1]%Z) /\
    dict_get once "unique_bodyparts" = Some (mk_ndarray [1; 1] [5]%Z) /\
    PadOutputs_call
      {| max_individuals := [("bodyparts", 3); ("unique_bodyparts", 0)];
         pad_value := (-1)%Z |} once []
    = (Ok (once, []), once).
Proof.
  destruct (pad_outputs_no_truncation_idempotent
              {| max_individuals := [("bodyparts", 3); ("unique_bodyparts", 0)];
                 pad_value := (-1)%Z |}
              [("bodyparts", mk_ndarray [1; 2] [7; 8]%Z);
               ("unique_bodyparts", mk_ndarray [1; 1] [5]%Z)] [])
    as [once [E1 [Hkeys E2]]].
  - intros name output. cbn [dict_get].
    destruct (String.eqb_spec "bodyparts" name) as [<-|_].
    + intros E; injection E as <-. split; [discriminate|]. now exists 3.
    + destruct (String.eqb_spec "unique_bodyparts" name) as [<-|_];
        [|discriminate].
      intros E; injection E as <-. split; [discriminate|]. now exists 0.
  - exists once. split; [exact E1|]. split; [|split; [|exact E2]].
    + apply (Hkeys "bodyparts" (mk_ndarray [1; 2] [7; 8]%Z) 1 [2] 3);
        [reflexivity | reflexivity | reflexivity | lia].
    + apply (Hkeys "unique_bodyparts" (mk_ndarray [1; 1] [5]%Z) 1 [1] 0);
        [reflexivity | reflexivity | reflexivity | left; reflexivity].
Defined.

(** ** [ConcatenateOutputs] on a non-empty list of candidates *)

Lemma mapM_length {A B : Type} (f : A -> result B) (l : list A) (r : list B) :
  mapM f l = Ok r -> length r = length l.
Proof.
  revert r. induction l as [|x l IH]; simpl; intros r E.
  - injection E as <-. reflexivity.
  - apply bind_Ok in E. destruct E as [y [_ E]].
    apply bind_Ok in E. destruct E as [ys [Eys E]].
    injection E as <-. simpl. f_equal. auto.
Qed.

(** Block [i] of a list made of blocks of [sz] elements. *)
Lemma block_of_concat {A : Type} (sz : nat) (blocks : list (list A)) :
  Forall (fun b => length b = sz) blocks ->
  forall (i : nat) (b : list A),
    nth_error blocks i = Some b ->
    firstn sz (skipn (i * sz) (concat blocks)) = b.
Proof.
  induction 1 as [|b0 blocks Hb0 Hall IH]; intros i b E.
  - destruct i; discriminate.
  - destruct i as [|i]; simpl in *.
    + injection E as <-. rewrite <- Hb0.
      rewrite firstn_app, Nat.sub_diag, firstn_all. simpl.
      apply app_nil_r.
    + rewrite skipn_app.
      rewrite (skipn_all2 b0) by lia. simpl.
      replace (sz + i * sz - length b0) with (i * sz) by lia.
      auto.
Qed.

Section Concatenation.
Context {elt : Type} `{Scalar elt}.

Lemma concatenate_same_tail (arrays : list (ndarray elt)) (tail : list nat) :
  arrays <> [] ->
  Forall (fun a => exists n, shape a = n :: tail) arrays ->
  np_concatenate arrays
  = Ok (mk_ndarray (list_sum (map (fun a => hd 0 (shape a)) arrays) :: tail)
          (concat (map data arrays))).
Proof.
  intros Ne Hall. unfold np_concatenate.
  destruct arrays as [|a arrays]; [contradiction|].
  pose proof (Forall_inv Hall) as [n En]. rewrite En.
  replace (forallb (joins tail) (a :: arrays)) with true; [reflexivity|].
  symmetry. apply forallb_forall. intros b Ib.
  rewrite Forall_forall in Hall. destruct (Hall b Ib) as [nb Eb].
  unfold joins. rewrite Eb. apply shape_eqb_refl.
Qed.

Lemma concatenate_items_spec (predictions : list (Prediction elt))
    (items : list (string * (string * string))) :
  predictions <> [] ->
  NoDup (dict_keys items) ->
  (forall name head_name val_name,
     In (name, (head_name, val_name)) items ->
     exists arrays tail,
       mapM (head_value head_name val_name) predictions = Ok arrays /\
       Forall (fun a => exists n, shape a = n :: tail) arrays) ->
  forall acc : dict (ndarray elt),
  exists outputs,
    concatenate_items predictions items acc = Ok outputs /\
    (forall name head_name val_name arrays tail,
       In (name, (head_name, val_name)) items ->
       mapM (head_value head_name val_name) predictions = Ok arrays ->
       Forall (fun a => exists n, shape a = n :: tail) arrays ->
       dict_get outputs name
       = Some (mk_ndarray
                 (list_sum (map (fun a => hd 0 (shape a)) arrays) :: tail)
                 (concat (map data arrays)))) /\
    (forall name, ~ In name (dict_keys items) ->
       dict_get outputs name = dict_get acc name).
Proof.
  intros Ne. induction items as [|[name [h v]] items IH];
    intros Hnodup Hall acc.
  - exists acc. simpl. repeat split; auto. intros ? ? ? ? ? [].
  - simpl in Hnodup. apply NoDup_cons_iff in Hnodup.
    destruct Hnodup as [Nname Hnodup].
    destruct (Hall name h v (or_introl eq_refl)) as [arrays [tail [Em Hs]]].
    assert (Na : arrays <> []).
    { intros ->. apply mapM_length in Em. destruct predictions;
        [contradiction | discriminate]. }
    destruct (IH Hnodup (fun n' h' v' I => Hall n' h' v' (or_intror I))
                (dict_set acc name
                   (mk_ndarray
                      (list_sum (map (fun a => hd 0 (shape a)) arrays) :: tail)
                      (concat (map data arrays)))))
      as [outputs [E [Hin Hout]]].
    exists outputs. simpl. rewrite Em. cbn [bind].
    rewrite (concatenate_same_tail arrays tail Na Hs). cbn [bind].
    split; [exact E|]. split.
    + intros n' h' v' arrays' tail' [Eq|I] Em' Hs'.
      * injection Eq as <- <- <-.
        rewrite Em in Em'. injection Em' as <-.
        rewrite (Hout name Nname), dict_get_set_same.
        destruct arrays as [|a arrays]; [contradiction|].
        destruct (Forall_inv Hs) as [n En].
        destruct (Forall_inv Hs') as [n' En'].
        replace tail' with tail by congruence. reflexivity.
      * eapply Hin; eauto.
    + intros n' N. rewrite Hout by (simpl in N; tauto).
      apply dict_get_set_other. intros ->. apply N. now left.
Qed.

(** Row [i] of the join of one-row arrays is the row of array [i]. *)
Lemma take_row_of_join (arrays : list (ndarray elt)) (tail : list nat) :
  Forall (fun a => shape a = 1 :: tail /\ well_formed a) arrays ->
  forall (i : nat) (a : ndarray elt),
    nth_error arrays i = Some a ->
    np_take 0 i
      (mk_ndarray (list_sum (map (fun a => hd 0 (shape a)) arrays) :: tail)
         (concat (map data arrays)))
    = Ok (mk_ndarray tail (data a)).
Proof.
  intros Hall i a Ei.
  assert (Hsum : list_sum (map (fun a => hd 0 (shape a)) arrays)
                 = length arrays).
  { clear - Hall. induction Hall as [|b bs [Eb _] _ IH]; simpl;
      [reflexivity|]. rewrite Eb, IH. reflexivity. }
  unfold np_take, in_bounds. simpl. rewrite Hsum.
  assert (Hi : i < length arrays) by (apply nth_error_Some; congruence).
  apply Nat.ltb_lt in Hi. rewrite Hi. do 2 f_equal.
  apply block_of_concat.
  - apply Forall_map. eapply Forall_impl; [|exact Hall].
    intros b [Eb Wb]. unfold well_formed in Wb. rewrite Eb in Wb.
    simpl in Wb. lia.
  - now apply map_nth_error.
Qed.

(** C5 (as amended).  On a non-empty list of candidates whose arrays, for
    each configured key, have a first axis and a common trailing shape,
    [ConcatenateOutputs] returns for each key the per-candidate arrays
    joined along their existing first axis, in input order: the first
    extents add up and the elements follow one another candidate by
    candidate.  When each candidate's array has one row, row [i] of the
    output is the row of candidate [i].  The context is returned
    unchanged. *)
Theorem concatenate_joins_in_order :
  forall (self : ConcatenateOutputs) (predictions : list (Prediction elt))
         (context : Context elt),
    predictions <> [] ->
    NoDup (dict_keys (keys_to_concatenate self)) ->
    (forall name head_name val_name,
       In (name, (head_name, val_name)) (keys_to_concatenate self) ->
       exists arrays tail,
         mapM (head_value head_name val_name) predictions = Ok arrays /\
         Forall (fun a => exists n, shape a = n :: tail) arrays) ->
    exists outputs,
      ConcatenateOutputs_call self predictions context
      = Ok (outputs, context) /\
      forall name head_name val_name arrays tail,
        In (name, (head_name, val_name)) (keys_to_concatenate self) ->
        mapM (head_value head_name val_name) predictions = Ok arrays ->
        Forall (fun a => exists n, shape a = n :: tail) arrays ->
        exists out,
          dict_get outputs name = Some out /\
          shape out
          = list_sum (map (fun a => hd 0 (shape a)) arrays) :: tail /\
          data out = concat (map data arrays) /\
          (Forall (fun a => shape a = 1 :: tail /\ well_formed a) arrays ->
           forall i a,
             nth_error arrays i = Some a ->
             np_take 0 i out = Ok (mk_ndarray tail (data a))).
Proof.
  intros self predictions context Ne Hnodup Hall.
  destruct (concatenate_items_spec predictions (keys_to_concatenate self)
              Ne Hnodup Hall []) as [outputs [E [Hin _]]].
  exists outputs. unfold ConcatenateOutputs_call.
  destruct predictions as [|p predictions]; [contradiction|].
  cbn [length Nat.eqb]. rewrite E. split; [reflexivity|].
  intros name h v arrays tail I Em Hs.
  eexists. split; [exact (Hin name h v arrays tail I Em Hs)|].
  split; [reflexivity|]. split; [reflexivity|].
  intros Hone i a Ei. exact (take_row_of_join arrays tail Hone i a Ei).
Qed.
End Concatenation.

(** ** [RescaleAndOffset] *)

Lemma nth_of_skipn {A : Type} (l : list A) (j : nat) (d : A) :
  j < length l -> firstn 1 (skipn j l) = [nth j l d].
Proof.
  revert j. induction l as [|x l IH]; intros j Hj; simpl in Hj; [lia|].
  destruct j as [|j]; simpl; [reflexivity|]. apply IH. lia.
Qed.

Lemma chunks_of_rows {A Q : Type} (g : Q -> list A) (c : nat) (rows : list Q) :
  (forall q, length (g q) = c) ->
  chunks c (length rows) (concat (map g rows)) = map g rows.
Proof.
  intros Hg. induction rows as [|q rows IH]; simpl; [reflexivity|].
  rewrite firstn_app, skipn_app, (Hg q), Nat.sub_diag.
  rewrite <- (Hg q) at 1 3. rewrite firstn_all, skipn_all. simpl.
  rewrite app_nil_r, IH. reflexivity.
Qed.

Lemma chunks_of_one {A : Type} (l : list A) :
  chunks 1 (length l) l = map (fun x => [x]) l.
Proof.
  induction l as [|x l IH]; simpl; [reflexivity|]. now rewrite IH.
Qed.

Lemma concat_singletons {A B : Type} (f : A -> B) (l : list A) :
  concat (map (fun x => [f x]) l) = map f l.
Proof.
  induction l as [|x l IH]; simpl; [reflexivity|]. now rewrite IH.
Qed.

Lemma concat_repeat_singleton {A : Type} (x : A) (n : nat) :
  concat (repeat [x] n) = repeat x n.
Proof.
  induction n as [|n IH]; simpl; [reflexivity|]. now rewrite IH.
Qed.

Lemma map2_repeat {A B C : Type} (f : A -> B -> C) (l : list A) (y : B) :
  map2 f l (repeat y (length l)) = map (fun x => f x y) l.
Proof.
  unfold map2. induction l as [|x l IH]; simpl; [reflexivity|]. now rewrite IH.
Qed.

Lemma map2_map {A B C Q : Type} (f : A -> B -> C) (a : Q -> A) (b : Q -> B)
    (l : list Q) :
  map2 f (map a l) (map b l) = map (fun q => f (a q) (b q)) l.
Proof.
  unfold map2. induction l as [|x l IH]; simpl; [reflexivity|]. now rewrite IH.
Qed.

Section Rescaling.
Context {elt : Type} `{Scalar elt}.

Lemma copy_eq (a : ndarray elt) : copy a = a.
Proof.
  destruct a. reflexivity.
Qed.

(** *** The cardinality check of [KEYPOINT_TD] *)

Lemma keypoint_td_length_mismatch (outputs scales offsets : ndarray elt)
    (n ns no : nat) :
  len outputs = Ok n -> len scales = Ok ns -> len offsets = Ok no ->
  ~ (n = ns /\ ns = no) ->
  rescale_keypoint_td outputs scales offsets = Raise ValueError.
Proof.
  intros En Es Eo Hne. unfold rescale_keypoint_td, same_lengths.
  rewrite En, Es. cbn [bind].
  destruct (Nat.eqb_spec n ns) as [Eq|Neq].
  - rewrite Eo. cbn [bind].
    destruct (Nat.eqb_spec ns no) as [Eq'|Neq']; [tauto|].
    reflexivity.
  - cbn [bind negb]. rewrite Eo. reflexivity.
Qed.

Lemma rescale_items_length_mismatch (self : RescaleAndOffset)
    (scales offsets : ndarray elt) (n ns no : nat)
    (items : list (string * ndarray elt)) :
  mode self = Mode.KEYPOINT_TD ->
  len scales = Ok ns -> len offsets = Ok no ->
  ~ (n = ns /\ ns = no) ->
  (exists name outputs,
     In (name, outputs) items /\
     list_contains (keys_to_rescale self) name = true) ->
  (forall name outputs,
     In (name, outputs) items ->
     list_contains (keys_to_rescale self) name = true ->
     len outputs = Ok n) ->
  forall updated_predictions,
    rescale_items self scales offsets items updated_predictions
    = Raise ValueError.
Proof.
  intros Em Es Eo Hne. induction items as [|[name outputs] items IH];
    intros [bad [obad [Ibad Cbad]]] Hlen acc.
  - contradiction.
  - simpl. destruct (list_contains (keys_to_rescale self) name) eqn:Cn.
    + unfold rescale. rewrite Em. cbn [Mode.eqb].
      rewrite (keypoint_td_length_mismatch outputs scales offsets n ns no);
        auto.
      apply Hlen with (name := name); [now left | exact Cn].
    + apply IH.
      * exists bad, obad. split; [|exact Cbad].
        destruct Ibad as [Eq|I]; [|exact I].
        injection Eq as -> ->. congruence.
      * intros k o I. apply Hlen. now right.
Qed.

(** C3.  In [KEYPOINT_TD] mode, with [scales] and [offsets] in the
    context and a configured key in the predictions, when the number of
    candidates, of scales and of offsets are not all equal the call raises
    [ValueError], returns nothing, and the mapping it was given is as it
    was. *)
Theorem keypoint_td_cardinality_mismatch_raises :
  forall (self : RescaleAndOffset) (predictions : dict (ndarray elt))
         (context : Context elt) (scales offsets : ndarray elt)
         (n ns no : nat),
    mode self = Mode.KEYPOINT_TD ->
    dict_get context "scales" = Some scales ->
    dict_get context "offsets" = Some offsets ->
    len scales = Ok ns ->
    len offsets = Ok no ->
    (exists name outputs,
       In (name, outputs) predictions /\
       list_contains (keys_to_rescale self) name = true) ->
    (forall name outputs,
       In (name, outputs) predictions ->
       list_contains (keys_to_rescale self) name = true ->
       len outputs = Ok n) ->
    ~ (n = ns /\ ns = no) ->
    RescaleAndOffset_call self predictions context
    = (Raise ValueError, predictions).
Proof.
  intros self predictions context scales offsets n ns no
         Em Ecs Eco Es Eo Hkey Hlen Hne.
  unfold RescaleAndOffset_call, dict_contains, dict_getitem.
  rewrite Ecs, Eco. cbn [negb andb bind].
  rewrite (rescale_items_length_mismatch self scales offsets n ns no
             predictions Em Es Eo Hne Hkey Hlen).
  reflexivity.
Qed.

(** *** Columns of a two-dimensional array *)

Section Columns.
Context {Q : Type}.
Variables (g r : Q -> list elt) (c : nat) (rows : list Q).
Hypothesis g_width : forall q, length (g q) = c.
Hypothesis r_width : forall q, length (r q) = c.

Lemma take_column (j : nat) :
  j < c ->
  np_take 1 j (mk_ndarray [length rows; c] (concat (map g rows)))
  = Ok (mk_ndarray [length rows] (map (fun q => nth j (g q) zero) rows)).
Proof.
  intros Hj. unfold np_take, in_bounds. cbn [shape data nth_error].
  apply Nat.ltb_lt in Hj as Hb. rewrite Hb.
  cbn [remove_axis select size_of fold_right].
  rewrite !Nat.mul_1_r, (chunks_of_rows g c rows g_width), map_map.
  do 2 f_equal.
  rewrite <- (concat_singletons (fun q => nth j (g q) zero) rows).
  f_equal. apply map_ext. intros q.
  apply nth_of_skipn. rewrite g_width. exact Hj.
Qed.

Lemma take_scalar (v : list elt) (i : nat) :
  i < length v ->
  np_take 0 i (mk_ndarray [length v] v)
  = Ok (mk_ndarray [] [nth i v zero]).
Proof.
  intros Hi. unfold np_take, in_bounds. cbn [shape data nth_error].
  apply Nat.ltb_lt in Hi as Hb. rewrite Hb.
  cbn [remove_axis select size_of fold_right].
  rewrite !Nat.mul_1_r. now rewrite (nth_of_skipn v i zero Hi).
Qed.

Lemma expand_vector (v : list elt) :
  broadcast_to [length v] (mk_ndarray [length v] v) = v.
Proof.
  unfold broadcast_to.
  cbn [shape data length Nat.sub repeat app expand size_of fold_right].
  rewrite Nat.eqb_refl, chunks_of_one, map_map.
  cbn [expand]. rewrite (concat_singletons (fun x : elt => x)).
  apply map_id.
Qed.

Lemma expand_scalar (x : elt) (n : nat) :
  broadcast_to [n] (mk_ndarray [] [x]) = repeat x n.
Proof.
  unfold broadcast_to.
  cbn [shape data length Nat.sub repeat app expand size_of fold_right
       chunks firstn skipn map concat].
  destruct (Nat.eqb_spec 1 n) as [<-|_]; [reflexivity|].
  apply concat_repeat_singleton.
Qed.

Lemma binop_scalar (f : elt -> elt -> elt) (v : list elt) (x : elt) :
  np_binop f (mk_ndarray [length v] v) (mk_ndarray [] [x])
  = Ok (mk_ndarray [length v] (map (fun y => f y x) v)).
Proof.
  unfold np_binop, broadcast_shapes.
  cbn [shape rev app broadcast_rev option_map].
  rewrite expand_vector, expand_scalar, map2_repeat. reflexivity.
Qed.

Lemma put_column (j : nat) (f : Q -> elt) :
  j < c ->
  np_put 1 j (mk_ndarray [length rows; c] (concat (map r rows)))
    (mk_ndarray [length rows] (map f rows))
  = Ok (mk_ndarray [length rows; c]
          (concat (map (fun q => firstn j (r q) ++ f q :: skipn (S j) (r q))
                       rows))).
Proof.
  intros Hj. unfold np_put, in_bounds. cbn [shape data nth_error].
  apply Nat.ltb_lt in Hj as Hb. rewrite Hb.
  cbn [remove_axis length Nat.sub strip_ones].
  unfold stretches. cbn [rev app stretches_rev].
  rewrite Nat.eqb_refl. cbn [orb andb].
  pose proof (expand_vector (map f rows)) as Ev.
  rewrite length_map in Ev. rewrite Ev.
  cbn [replace remove_axis size_of fold_right].
  rewrite !Nat.mul_1_r, (chunks_of_rows r c rows r_width).
  rewrite <- (length_map f rows) at 2. rewrite chunks_of_one, map_map.
  rewrite map2_map. reflexivity.
Qed.

Lemma scale_and_offset_column (j i : nat) (sv ov : list elt) :
  j < c -> i < length sv -> i < length ov ->
  scale_and_offset 1 j i
    (mk_ndarray [length rows; c] (concat (map r rows)))
    (mk_ndarray [length rows; c] (concat (map g rows)))
    (mk_ndarray [length sv] sv) (mk_ndarray [length ov] ov)
  = Ok (mk_ndarray [length rows; c]
          (concat (map (fun q =>
                          firstn j (r q)
                          ++ add (mul (nth j (g q) zero) (nth i sv zero))
                                 (nth i ov zero)
                             :: skipn (S j) (r q))
                       rows))).
Proof.
  intros Hj Hs Ho. unfold scale_and_offset.
  rewrite (take_column j Hj). cbn [bind].
  rewrite (take_scalar sv i Hs). cbn [bind].
  pose proof (binop_scalar mul (map (fun q => nth j (g q) zero) rows)
                (nth i sv zero)) as Em.
  rewrite length_map, map_map in Em. rewrite Em. cbn [bind].
  rewrite (take_scalar ov i Ho). cbn [bind].
  pose proof (binop_scalar add
                (map (fun q => mul (nth j (g q) zero) (nth i sv zero)) rows)
                (nth i ov zero)) as Ea.
  rewrite length_map, map_map in Ea. rewrite Ea. cbn [bind].
  exact (put_column j _ Hj).
Qed.

Lemma scale_only_column (j i : nat) (sv : list elt) :
  j < c -> i < length sv ->
  scale_only j i
    (mk_ndarray [length rows; c] (concat (map r rows)))
    (mk_ndarray [length rows; c] (concat (map g rows)))
    (mk_ndarray [length sv] sv)
  = Ok (mk_ndarray [length rows; c]
          (concat (map (fun q =>
                          firstn j (r q)
                          ++ mul (nth j (g q) zero) (nth i sv zero)
                             :: skipn (S j) (r q))
                       rows))).
Proof.
  intros Hj Hs. unfold scale_only.
  rewrite (take_column j Hj). cbn [bind].
  rewrite (take_scalar sv i Hs). cbn [bind].
  pose proof (binop_scalar mul (map (fun q => nth j (g q) zero) rows)
                (nth i sv zero)) as Em.
  rewrite length_map, map_map in Em. rewrite Em. cbn [bind].
  exact (put_column j _ Hj).
Qed.
End Columns.

(** *** [BBOX_XYWH] *)

Lemma rescale_bbox_xywh_rows (rows : list (elt * elt * elt * elt))
    (sx sy ox oy : elt) :
  rescale_bbox_xywh (bbox_array rows)
    (mk_ndarray [2] [sx; sy]) (mk_ndarray [2] [ox; oy])
  = Ok (bbox_array
          (map (fun '(x, y, w, h) =>
                  (add (mul x sx) ox, add (mul y sy) oy, mul w sx, mul h sy))
               rows)).
Proof.
  unfold rescale_bbox_xywh. rewrite copy_eq. unfold bbox_array.
  pose proof (fun Q g r c rows Hg Hr j i =>
    @scale_and_offset_column Q g r c rows Hg Hr j i [sx; sy] [ox; oy]) as Eso.
  pose proof (fun Q g r c rows Hg Hr j i =>
    @scale_only_column Q g r c rows Hg Hr j i [sx; sy]) as Es.
  cbn [length] in Eso, Es.
  erewrite Eso by first [lia | intros [[[? ?] ?] ?]; reflexivity].
  cbn [bind].
  erewrite Eso by first [lia | intros [[[? ?] ?] ?]; reflexivity].
  cbn [bind].
  erewrite Es by first [lia | intros [[[? ?] ?] ?]; reflexivity].
  cbn [bind].
  erewrite Es by first [lia | intros [[[? ?] ?] ?]; reflexivity].
  rewrite length_map, map_map. do 3 f_equal.
  apply map_ext. intros [[[x y] w] h]. reflexivity.
Qed.

(** *** The loop over the items of the predictions *)

Lemma rescale_items_spec (self : RescaleAndOffset)
    (scales offsets : ndarray elt) (G : ndarray elt -> ndarray elt)
    (items : list (string * ndarray elt)) :
  NoDup (dict_keys items) ->
  (forall name outputs,
     In (name, outputs) items ->
     list_contains (keys_to_rescale self) name = true ->
     rescale (mode self) outputs scales offsets = Ok (G outputs)) ->
  forall acc : dict (ndarray elt),
  exists updated,
    rescale_items self scales offsets items acc = Ok updated /\
    (forall name outputs,
       In (name, outputs) items ->
       dict_get updated name
       = Some (if list_contains (keys_to_rescale self) name
               then G outputs else outputs)) /\
    (forall name, ~ In name (dict_keys items) ->
       dict_get updated name = dict_get acc name).
Proof.
  induction items as [|[name outputs] items IH]; intros Hnodup Hres acc.
  - exists acc. simpl. repeat split; auto. intros ? ? [].
  - simpl in Hnodup. apply NoDup_cons_iff in Hnodup.
    destruct Hnodup as [Nname Hnodup].
    specialize (IH Hnodup (fun k o I => Hres k o (or_intror I))).
    simpl. destruct (list_contains (keys_to_rescale self) name) eqn:Cn.
    + rewrite (Hres name outputs (or_introl eq_refl) Cn). cbn [bind].
      destruct (IH (dict_set acc name (G outputs)))
        as [updated [E [Hin Hout]]].
      exists updated. split; [exact E|]. split.
      * intros k o [Eq|I].
        -- injection Eq as <- <-.
           rewrite (Hout name Nname), dict_get_set_same, Cn. reflexivity.
        -- now apply Hin.
      * intros k N. rewrite Hout by tauto.
        apply dict_get_set_other. intros ->. apply N. now left.
    + destruct (IH (dict_set acc name (copy outputs)))
        as [updated [E [Hin Hout]]].
      exists updated. split; [exact E|]. split.
      * intros k o [Eq|I].
        -- injection Eq as <- <-.
           rewrite (Hout name Nname), dict_get_set_same, Cn, copy_eq.
           reflexivity.
        -- now apply Hin.
      * intros k N. rewrite Hout by tauto.
        apply dict_get_set_other. intros ->. apply N. now left.
Qed.

(** C9.  In [BBOX_XYWH] mode with one scale pair [(sx, sy)] and one offset
    pair [(ox, oy)] in the context, the call returns, and every row
    [(x, y, w, h)] of each configured [(N, 4)] array has become
    [(x*sx + ox, y*sy + oy, w*sx, h*sy)]: width and height are scaled and
    receive no offset.  The other arrays are returned as they were. *)
Theorem bbox_xywh_rescales_rows :
  forall (self : RescaleAndOffset) (predictions : dict (ndarray elt))
         (context : Context elt) (sx sy ox oy : elt),
    mode self = Mode.BBOX_XYWH ->
    dict_get context "scales" = Some (mk_ndarray [2] [sx; sy]) ->
    dict_get context "offsets" = Some (mk_ndarray [2] [ox; oy]) ->
    NoDup (dict_keys predictions) ->
    (forall name outputs,
       In (name, outputs) predictions ->
       list_contains (keys_to_rescale self) name = true ->
       exists rows, outputs = bbox_array rows) ->
    exists updated,
      RescaleAndOffset_call self predictions context
      = (Ok (updated, context), predictions) /\
      (forall name rows,
         dict_get predictions name = Some (bbox_array rows) ->
         list_contains (keys_to_rescale self) name = true ->
         dict_get updated name
         = Some (bbox_array
                   (map (fun '(x, y, w, h) =>
                           (add (mul x sx) ox, add (mul y sy) oy,
                            mul w sx, mul h sy))
                        rows))) /\
      (forall name outputs,
         dict_get predictions name = Some outputs ->
         list_contains (keys_to_rescale self) name = false ->
         dict_get updated name = Some outputs).
Proof.
  intros self predictions context sx sy ox oy Em Ecs Eco Hnodup Hboxes.
  set (scales := mk_ndarray [2] [sx; sy]) in *.
  set (offsets := mk_ndarray [2] [ox; oy]) in *.
  set (G := fun a : ndarray elt =>
              match rescale_bbox_xywh a scales offsets with
              | Ok b => b
              | Raise _ => a
              end).
  destruct (rescale_items_spec self scales offsets G predictions Hnodup)
    with (acc := @nil (string * ndarray elt)) as [updated [E [Hin _]]].
  { intros name outputs I Cn. destruct (Hboxes name outputs I Cn) as [rows ->].
    unfold rescale. rewrite Em. cbn [Mode.eqb]. unfold G, scales, offsets.
    now rewrite rescale_bbox_xywh_rows. }
  exists updated. unfold RescaleAndOffset_call, dict_contains, dict_getitem.
  rewrite Ecs, Eco. cbn [negb andb bind]. rewrite E. cbn [bind].
  split; [reflexivity|]. split.
  - intros name rows Eg Cn.
    rewrite (Hin name _ (dict_get_In _ _ _ Eg)), Cn.
    unfold G, scales, offsets. now rewrite rescale_bbox_xywh_rows.
  - intros name outputs Eg Cn.
    now rewrite (Hin name _ (dict_get_In _ _ _ Eg)), Cn.
Qed.
End Rescaling.

(** ** Instances on sample data *)

Lemma keypoint_td_cardinality_mismatch_raises_witness :
  RescaleAndOffset_call top_down_rescale
    [("bodyparts", mk_ndarray [3; 1; 3] [1; 2; 3; 4; 5; 6; 7; 8; 9]%Z)]
    [("scales", mk_ndarray [2; 2] [2; 2; 2; 2]%Z);
     ("offsets", mk_ndarray [2; 2] [0; 0; 0; 0]%Z)]
  = (Raise ValueError,
     [("bodyparts", mk_ndarray [3; 1; 3] [1; 2; 3; 4; 5; 6; 7; 8; 9]%Z)]).
Proof.
  apply (keypoint_td_cardinality_mismatch_raises top_down_rescale
           [("bodyparts", mk_ndarray [3; 1; 3] [1; 2; 3; 4; 5; 6; 7; 8; 9]%Z)]
           [("scales", mk_ndarray [2; 2] [2; 2; 2; 2]%Z);
            ("offsets", mk_ndarray [2; 2] [0; 0; 0; 0]%Z)]
           (mk_ndarray [2; 2] [2; 2; 2; 2]%Z)
           (mk_ndarray [2; 2] [0; 0; 0; 0]%Z) 3 2 2).
  - reflexivity.
  - reflexivity.
  - reflexivity.
  - reflexivity.
  - reflexivity.
  - exists "bodyparts", (mk_ndarray [3; 1; 3] [1; 2; 3; 4; 5; 6; 7; 8; 9]%Z).
    split; [left; reflexivity | reflexivity].
  - intros name outputs [E|[]] _. injection E as <- <-. reflexivity.
  - lia.
Defined.

Lemma bbox_xywh_rescales_rows_witness :
  exists updated,
    RescaleAndOffset_call detector_rescale
      [("bboxes", bbox_array [(1, 2, 3, 4)%Z]);
       ("bbox_scores", mk_ndarray [1] [9]%Z)]
      [("scales", mk_ndarray [2] [10; 100]%Z);
       ("offsets", mk_ndarray [2] [5; 6]%Z)]
    = (Ok (updated,
           [("scales", mk_ndarray [2] [10; 100]%Z);
            ("offsets", mk_ndarray [2] [5; 6]%Z)]),
       [("bboxes", bbox_array [(1, 2, 3, 4)%Z]);
        ("bbox_scores", mk_ndarray [1] [9]%Z)]) /\
    dict_get updated "bboxes" = Some (bbox_array [(15, 206, 30, 400)%Z]) /\
    dict_get updated "bbox_scores" = Some (mk_ndarray [1] [9]%Z).
Proof.
  destruct (bbox_xywh_rescales_rows detector_rescale
              [("bboxes", bbox_array [(1, 2, 3, 4)%Z]);
               ("bbox_scores", mk_ndarray [1] [9]%Z)]
              [("scales", mk_ndarray [2] [10; 100]%Z);
               ("offsets", mk_ndarray [2] [5; 6]%Z)]
              10%Z 100%Z 5%Z 6%Z)
    as [updated [E [Hboxes Hothers]]].
  - reflexivity.
  - reflexivity.
  - reflexivity.
  - constructor; [intros [E|[]]; discriminate|].
    constructor; [intros []|constructor].
  - intros name outputs [E|[E|[]]] Cn; injection E as <- <-.
    + exists [(1, 2, 3, 4)%Z]. reflexivity.
    + discriminate Cn.
  - exists updated. split; [exact E|]. split.
    + apply (Hboxes "bboxes" [(1, 2, 3, 4)%Z]); reflexivity.
    + apply (Hothers "bbox_scores"); reflexivity.
Defined.

Lemma concatenate_joins_in_order_witness :
  exists outputs,
    ConcatenateOutputs_call bodyparts_only
      [poses_candidate (mk_ndarray [1; 2] [1; 2]%Z);
       poses_candidate (mk_ndarray [1; 2] [3; 4]%Z)] []
    = Ok (outputs, []) /\
    exists out,
      dict_get outputs "bodyparts" = Some out /\
      shape out = [2; 2] /\
      data out = [1; 2; 3; 4]%Z /\
      np_take 0 1 out = Ok (mk_ndarray [2] [3; 4]%Z).
Proof.
  destruct (concatenate_joins_in_order bodyparts_only
              [poses_candidate (mk_ndarray [1; 2] [1; 2]%Z);
               poses_candidate (mk_ndarray [1; 2] [3; 4]%Z)] [])
    as [outputs [E Hkeys]].
  - discriminate.
  - constructor; [intros []|constructor].
  - intros name h v [Eq|[]]. injection Eq as <- <- <-.
    exists [mk_ndarray [1; 2] [1; 2]%Z; mk_ndarray [1; 2] [3; 4]%Z], [2].
    split; [reflexivity|].
    repeat constructor; eexists; reflexivity.
  - exists outputs. split; [exact E|].
    destruct (Hkeys "bodyparts" "bodypart" "poses"
                [mk_ndarray [1; 2] [1; 2]%Z; mk_ndarray [1; 2] [3; 4]%Z] [2])
      as [out [Eout [Eshape [Edata Hrow]]]].
    + left. reflexivity.
    + reflexivity.
    + repeat constructor; eexists; reflexivity.
    + exists out. split; [exact Eout|]. split; [exact Eshape|].
      split; [exact Edata|].
      apply (Hrow ltac:(repeat constructor) 1 (mk_ndarray [1; 2] [3; 4]%Z)).
      reflexivity.
Defined.

(** C5 (as stated) fails when a candidate's array has more than one row:
    two candidates of shape [(2, 1)] give an output of shape [(4, 1)], not
    the stack of shape [(2, 2, 1)], and row 1 of the output is the second
    row of candidate 0, not the array of candidate 1. *)
Lemma concatenate_is_not_a_stack :
  ConcatenateOutputs_call bodyparts_only
    [poses_candidate (mk_ndarray [2; 1] [1; 2]%Z);
     poses_candidate (mk_ndarray [2; 1] [3; 4]%Z)] []
  = Ok ([("bodyparts", mk_ndarray [4; 1] [1; 2; 3; 4]%Z)], []) /\
  stacked_per_candidate "bodypart" "poses"
    [poses_candidate (mk_ndarray [2; 1] [1; 2]%Z);
     poses_candidate (mk_ndarray [2; 1] [3; 4]%Z)]
  = Ok (mk_ndarray [2; 2; 1] [1; 2; 3; 4]%Z) /\
  np_take 0 1 (mk_ndarray [4; 1] [1; 2; 3; 4]%Z) = Ok (mk_ndarray [1] [2]%Z) /\
  np_take 0 1 (mk_ndarray [4; 1] [1; 2; 3; 4]%Z)
  <> Ok (mk_ndarray [2; 1] [3; 4]%Z).
Proof.
  split; [reflexivity|]. split; [reflexivity|]. split; [reflexivity|].
  discriminate.
Qed.

(** * Further properties of the stages *)

(** ** [AddContextToOutput] *)

Section AddingContext.
Context {elt : Type} `{Scalar elt}.

Lemma add_context_loop_spec (ks : list string) (context : Context elt) :
  forall predictions : dict (ndarray elt),
  exists final,
    add_context_loop ks context predictions = (Ok tt, final) /\
    forall k,
      dict_get final k
      = if list_contains ks k && dict_contains context k
        then dict_get context k else dict_get predictions k.
Proof.
  induction ks as [|k0 ks IH]; intros predictions.
  - exists predictions. split; reflexivity.
  - simpl. unfold dict_contains at 1, dict_getitem.
    destruct (dict_get context k0) as [v|] eqn:E0.
    + destruct (IH (dict_set predictions k0 (copy v))) as [final [E Hfinal]].
      exists final. split; [exact E|]. intros k. rewrite Hfinal.
      destruct (String.eqb_spec k k0) as [->|Nk]; simpl.
      * unfold dict_contains. rewrite E0.
        destruct (list_contains ks k0); simpl; [reflexivity|].
        rewrite dict_get_set_same. now destruct v.
      * rewrite dict_get_set_other by congruence. reflexivity.
    + destruct (IH predictions) as [final [E Hfinal]].
      exists final. split; [exact E|]. intros k. rewrite Hfinal.
      destruct (String.eqb_spec k k0) as [->|Nk]; simpl; [|reflexivity].
      unfold dict_contains. rewrite E0.
      now rewrite !andb_false_r.
Qed.

(** X1.  [AddContextToOutput] never raises on a mapping.  Afterwards a
    name holds the context's array when it is one of the stage's keys and
    the context has it, and what it held before otherwise: keys the context
    lacks are skipped, names that are not keys are untouched.  The mapping
    returned is the caller's own. *)
Theorem add_context_copies_present_keys :
  forall (self : AddContextToOutput) (predictions : dict (ndarray elt))
         (context : Context elt),
  exists final,
    AddContextToOutput_call self predictions context
    = (Ok (final, context), final) /\
    forall k,
      dict_get final k
      = if list_contains (keys self) k && dict_contains context k
        then dict_get context k else dict_get predictions k.
Proof.
  intros self predictions context.
  destruct (add_context_loop_spec (keys self) context predictions)
    as [final [E Hfinal]].
  exists final. unfold AddContextToOutput_call. rewrite E. auto.
Qed.
End AddingContext.

(** ** [BboxToCoco] *)

Lemma binop_vectors {elt : Type} `{Scalar elt} (f : elt -> elt -> elt)
    (v w : list elt) :
  length w = length v ->
  np_binop f (mk_ndarray [length v] v) (mk_ndarray [length v] w)
  = Ok (mk_ndarray [length v] (map2 f v w)).
Proof.
  intros E. unfold np_binop, broadcast_shapes.
  cbn [shape rev app broadcast_rev option_map]. rewrite Nat.eqb_refl.
  cbn [option_map rev app].
  pose proof (expand_vector w) as Ew. rewrite E in Ew.
  rewrite expand_vector, Ew. reflexivity.
Qed.

Section CornerPairs.
Context {elt : Type} `{Scalar elt} `{Subtraction elt}.

Section OneColumn.
Context {Q : Type}.
Variables (g : Q -> list elt) (c : nat) (rows : list Q).
Hypothesis g_width : forall q, length (g q) = c.

Lemma subtract_column_rows (j i : nat) (bbox_key : string)
    (predictions : dict (ndarray elt)) :
  j < c -> i < c ->
  dict_get predictions bbox_key
  = Some (mk_ndarray [length rows; c] (concat (map g rows))) ->
  subtract_column j i bbox_key predictions
  = Ok (dict_set predictions bbox_key
          (mk_ndarray [length rows; c]
             (concat (map (fun q =>
                             firstn j (g q)
                             ++ sub (nth j (g q) zero) (nth i (g q) zero)
                                :: skipn (S j) (g q))
                          rows)))).
Proof.
  intros Hj Hi Eg. unfold subtract_column, dict_getitem.
  rewrite Eg. cbn [bind].
  rewrite (take_column g c rows g_width j Hj). cbn [bind].
  rewrite (take_column g c rows g_width i Hi). cbn [bind].
  pose proof (binop_vectors sub (map (fun q => nth j (g q) zero) rows)
                (map (fun q => nth i (g q) zero) rows)) as Eb.
  rewrite !length_map in Eb. rewrite (Eb eq_refl). cbn [bind].
  rewrite map2_map.
  rewrite (put_column g c rows g_width j
             (fun q => sub (nth j (g q) zero) (nth i (g q) zero)) Hj).
  reflexivity.
Qed.
End OneColumn.

Lemma bbox_array_inj (rows rows' : list (elt * elt * elt * elt)) :
  bbox_array rows = bbox_array rows' -> rows = rows'.
Proof.
  unfold bbox_array. intros E. injection E as _ E.
  revert rows' E. induction rows as [|[[[x y] w] h] rows IH];
    intros [|[[[x' y'] w'] h'] rows']; simpl; intros E;
    try discriminate; [reflexivity|].
  injection E as -> -> -> -> E. f_equal. auto.
Qed.

(** Both statements of the loop body, on an array of boxes. *)
Lemma to_coco_boxes (bbox_key : string) (predictions : dict (ndarray elt))
    (rows : list (elt * elt * elt * elt)) :
  dict_get predictions bbox_key = Some (bbox_array rows) ->
  exists predictions2,
    (predictions1 <- subtract_column 2 0 bbox_key predictions ;;
     subtract_column 3 1 bbox_key predictions1) = Ok predictions2 /\
    subtract_column 2 0 bbox_key predictions <> Raise KeyError /\
    dict_get predictions2 bbox_key
    = Some (bbox_array
              (map (fun '(x1, y1, x2, y2) => (x1, y1, sub x2 x1, sub y2 y1))
                   rows)) /\
    (forall k, k <> bbox_key ->
               dict_get predictions2 k = dict_get predictions k) /\
    dict_keys predictions2 = dict_keys predictions.
Proof.
  intros Eg. unfold bbox_array in Eg.
  set (g := fun q : elt * elt * elt * elt =>
              let '(x, y, w, h) := q in [x; y; w; h]) in *.
  assert (Hg : forall q, length (g q) = 4)
    by (intros [[[? ?] ?] ?]; reflexivity).
  rewrite (subtract_column_rows g 4 rows Hg 2 0 bbox_key predictions)
    by first [lia | exact Eg].
  cbn [bind].
  set (g1 := fun q => firstn 2 (g q)
                      ++ sub (nth 2 (g q) zero) (nth 0 (g q) zero)
                         :: skipn 3 (g q)).
  assert (Hg1 : forall q, length (g1 q) = 4)
    by (intros [[[? ?] ?] ?]; reflexivity).
  rewrite (subtract_column_rows g1 4 rows Hg1 3 1 bbox_key)
    by first [lia | apply dict_get_set_same].
  eexists. split; [reflexivity|]. split; [discriminate|]. split; [|split].
  - rewrite dict_get_set_same. unfold bbox_array.
    rewrite length_map, map_map. do 3 f_equal.
    apply map_ext. intros [[[x1 y1] x2] y2]. reflexivity.
  - intros k Nk. rewrite !dict_get_set_other by congruence. reflexivity.
  - rewrite !dict_keys_set_present; [reflexivity | |].
    + exact (dict_get_Some_keys _ _ _ Eg).
    + rewrite dict_keys_set_present; exact (dict_get_Some_keys _ _ _ Eg).
Qed.

Lemma to_coco_loop_spec (bbox_keys : list string) :
  NoDup bbox_keys ->
  forall predictions : dict (ndarray elt),
    (forall k, In k bbox_keys ->
       exists rows, dict_get predictions k = Some (bbox_array rows)) ->
    exists final,
      to_coco_loop bbox_keys predictions = (Ok tt, final) /\
      (forall k rows,
         In k bbox_keys ->
         dict_get predictions k = Some (bbox_array rows) ->
         dict_get final k
         = Some (bbox_array
                   (map (fun '(x1, y1, x2, y2) =>
                           (x1, y1, sub x2 x1, sub y2 y1))
                        rows))) /\
      (forall k, ~ In k bbox_keys ->
                 dict_get final k = dict_get predictions k) /\
      dict_keys final = dict_keys predictions.
Proof.
  induction 1 as [|k0 ks Nk0 Hnodup IH]; intros predictions Hall.
  - exists predictions. simpl. repeat split; auto. intros ? ? [].
  - destruct (Hall k0 (or_introl eq_refl)) as [rows0 E0].
    destruct (to_coco_boxes k0 predictions rows0 E0)
      as [p2 [E2 [_ [G0 [Gother K2]]]]].
    destruct (IH p2) as [final [E [Hin [Hout Kf]]]].
    { intros k I. destruct (Hall k (or_intror I)) as [rows Ek].
      exists rows. rewrite Gother; [exact Ek|]. intros ->. contradiction. }
    exists final. split; [|split; [|split; [|congruence]]].
    + simpl. apply bind_Ok in E2. destruct E2 as [p1 [E1 E2]].
      rewrite E1, E2. exact E.
    + intros k rows [<-|I] Ek.
      * rewrite (Hout k0 Nk0), G0.
        rewrite E0 in Ek.
        assert (Er : bbox_array rows0 = bbox_array rows) by congruence.
        now rewrite (bbox_array_inj _ _ Er).
      * apply Hin; [exact I|]. rewrite Gother; [exact Ek|].
        intros ->. contradiction.
    + intros k N. rewrite Hout by (intros I; apply N; now right).
      apply Gother. intros ->. apply N. now left.
Qed.

(** X2.  [BboxToCoco] turns every row [(x1, y1, x2, y2)] of each configured
    array of boxes into [(x1, y1, x2 - x1, y2 - y1)], in the caller's own
    mapping, and leaves the other names as they were (the configured keys
    being distinct and each holding an [(N, 4)] array). *)
Theorem bbox_to_coco_converts_rows :
  forall (self : BboxToCoco) (predictions : dict (ndarray elt))
         (context : Context elt),
    NoDup (bounding_box_keys self) ->
    (forall k, In k (bounding_box_keys self) ->
       exists rows, dict_get predictions k = Some (bbox_array rows)) ->
    exists converted,
      BboxToCoco_call self predictions context
      = (Ok (converted, context), converted) /\
      (forall k rows,
         In k (bounding_box_keys self) ->
         dict_get predictions k = Some (bbox_array rows) ->
         dict_get converted k
         = Some (bbox_array
                   (map (fun '(x1, y1, x2, y2) =>
                           (x1, y1, sub x2 x1, sub y2 y1))
                        rows))) /\
      (forall k, ~ In k (bounding_box_keys self) ->
                 dict_get converted k = dict_get predictions k).
Proof.
  intros self predictions context Hnodup Hall.
  destruct (to_coco_loop_spec (bounding_box_keys self) Hnodup predictions Hall)
    as [final [E [Hin [Hout _]]]].
  exists final. unfold BboxToCoco_call. rewrite E. auto.
Qed.

(** X3.  A configured key that the mapping lacks makes [BboxToCoco] raise
    [KeyError] (the configured keys that are present holding [(N, 4)]
    arrays); the keys converted before it stay converted. *)
Theorem bbox_to_coco_missing_key :
  forall (self : BboxToCoco) (predictions : dict (ndarray elt))
         (context : Context elt) (missing : string),
    In missing (bounding_box_keys self) ->
    dict_get predictions missing = None ->
    (forall k a, In k (bounding_box_keys self) ->
       dict_get predictions k = Some a -> exists rows, a = bbox_array rows) ->
    fst (BboxToCoco_call self predictions context) = Raise KeyError.
Proof.
  intros self predictions context missing Imiss Emiss Hall.
  unfold BboxToCoco_call.
  assert (Hloop : fst (to_coco_loop (bounding_box_keys self) predictions)
                  = Raise KeyError).
  { revert predictions Emiss Hall.
    induction (bounding_box_keys self) as [|k0 ks IH];
      intros predictions Emiss Hall; [contradiction|].
    simpl. destruct (dict_get predictions k0) as [a|] eqn:E0.
    - destruct (Hall k0 a (or_introl eq_refl) E0) as [rows ->].
      destruct (to_coco_boxes k0 predictions rows E0)
        as [p2 [E2 [_ [G0 [Gother _]]]]].
      apply bind_Ok in E2. destruct E2 as [p1 [E1 E2]].
      rewrite E1, E2.
      assert (Nk : missing <> k0) by congruence.
      apply IH.
      + destruct Imiss as [->|I]; [congruence | exact I].
      + rewrite Gother; auto.
      + intros k a I Ek. destruct (string_dec k k0) as [->|Nk0].
        * rewrite G0 in Ek. injection Ek as <-. eauto.
        * rewrite Gother in Ek by exact Nk0. apply (Hall k a); [now right|auto].
    - unfold subtract_column, dict_getitem. rewrite E0. reflexivity. }
  destruct (to_coco_loop (bounding_box_keys self) predictions)
    as [outcome final].
  simpl in Hloop. rewrite Hloop. reflexivity.
Qed.
End CornerPairs.

(** ** [ComposePostprocessor] *)

Lemma dict_get_of_In {V : Type} (d : dict V) (k : string) (v : V) :
  NoDup (dict_keys d) -> In (k, v) d -> dict_get d k = Some v.
Proof.
  induction d as [|[k' v'] d IH]; simpl; intros Hnodup I; [contradiction|].
  apply NoDup_cons_iff in Hnodup. destruct Hnodup as [Nk' Hnodup].
  destruct I as [E|I].
  - injection E as -> ->. now rewrite String.eqb_refl.
  - destruct (String.eqb_spec k' k) as [->|_]; [|auto].
    exfalso. apply Nk'. apply (in_map fst) in I. exact I.
Qed.

Section Composition.
Context {elt : Type} `{Scalar elt} `{Subtraction elt}.

Lemma as_outputs_Ok (r : result (dict (ndarray elt) * Context elt))
    (p : Predictions elt) (c : Context elt) :
  as_outputs r = Ok (p, c) -> exists d, r = Ok (d, c) /\ p = Outputs d.
Proof.
  unfold as_outputs. intros E. apply bind_Ok in E.
  destruct E as [[d c'] [Er E]]. simpl in E. injection E as <- <-.
  exists d. auto.
Qed.

Lemma concatenate_keeps_context (self : ConcatenateOutputs)
    (records : list (Prediction elt)) (context c : Context elt)
    (d : dict (ndarray elt)) :
  ConcatenateOutputs_call self records context = Ok (d, c) -> c = context.
Proof.
  unfold ConcatenateOutputs_call.
  destruct (length records =? 0); intros E; apply bind_Ok in E;
    destruct E as [outputs [_ E]]; congruence.
Qed.

Lemma rescale_keeps_context (self : RescaleAndOffset)
    (arrays d : dict (ndarray elt)) (context c : Context elt) :
  fst (RescaleAndOffset_call self arrays context) = Ok (d, c) -> c = context.
Proof.
  unfold RescaleAndOffset_call.
  destruct (negb (dict_contains context "scales")
            && negb (dict_contains context "offsets")); simpl; intros E.
  - congruence.
  - apply bind_Ok in E. destruct E as [scales [_ E]].
    apply bind_Ok in E. destruct E as [offsets [_ E]].
    apply bind_Ok in E. destruct E as [updated [_ E]]. congruence.
Qed.

Lemma pad_keeps_context (self : PadOutputs)
    (arrays d : dict (ndarray elt)) (context c : Context elt) :
  fst (PadOutputs_call self arrays context) = Ok (d, c) -> c = context.
Proof.
  unfold PadOutputs_call.
  destruct (pad_loop self (dict_keys arrays) arrays) as [[u|e] final];
    simpl; congruence.
Qed.

Lemma to_coco_keeps_context (self : BboxToCoco)
    (arrays d : dict (ndarray elt)) (context c : Context elt) :
  fst (BboxToCoco_call self arrays context) = Ok (d, c) -> c = context.
Proof.
  unfold BboxToCoco_call.
  destruct (to_coco_loop (bounding_box_keys self) arrays) as [[u|e] final];
    simpl; congruence.
Qed.

Lemma add_context_keeps_context (self : AddContextToOutput)
    (arrays d : dict (ndarray elt)) (context c : Context elt) :
  fst (AddContextToOutput_call self arrays context) = Ok (d, c) -> c = context.
Proof.
  unfold AddContextToOutput_call.
  destruct (add_context_loop (keys self) context arrays) as [[u|e] final];
    simpl; congruence.
Qed.

Lemma stage_keeps_context (stage : Postprocessor)
    (predictions p : Predictions elt) (context c : Context elt) :
  Postprocessor_call stage predictions context = Ok (p, c) -> c = context.
Proof.
  destruct stage as [s|s|s|s|s], predictions as [records|arrays]; simpl.
  - intros E. apply as_outputs_Ok in E. destruct E as [d [E _]].
    exact (concatenate_keeps_context _ _ _ _ _ E).
  - destruct arrays as [|entry arrays].
    + intros E. apply as_outputs_Ok in E. destruct E as [d [E _]].
      exact (concatenate_keeps_context _ _ _ _ _ E).
    + destruct (keys_to_concatenate s); [congruence | discriminate].
  - destruct (negb (dict_contains context "scales")
              && negb (dict_contains context "offsets")); [congruence|].
    destruct (dict_getitem context "scales"); [|discriminate].
    destruct (dict_getitem context "offsets"); discriminate.
  - intros E. apply as_outputs_Ok in E. destruct E as [d [E _]].
    exact (rescale_keeps_context _ _ _ _ _ E).
  - destruct records; [congruence | discriminate].
  - intros E. apply as_outputs_Ok in E. destruct E as [d [E _]].
    exact (pad_keeps_context _ _ _ _ _ E).
  - destruct (bounding_box_keys s); [congruence | discriminate].
  - intros E. apply as_outputs_Ok in E. destruct E as [d [E _]].
    exact (to_coco_keeps_context _ _ _ _ _ E).
  - destruct (existsb (dict_contains context) (keys s));
      [discriminate | congruence].
  - intros E. apply as_outputs_Ok in E. destruct E as [d [E _]].
    exact (add_context_keeps_context _ _ _ _ _ E).
Qed.

(** X4.  Whatever its stages, a composed postprocessor that returns hands
    back the context it was given: no stage replaces the context. *)
Theorem compose_returns_its_context :
  forall (self : ComposePostprocessor) (predictions p : Predictions elt)
         (context c : Context elt),
    ComposePostprocessor_call self predictions context = Ok (p, c) ->
    c = context.
Proof.
  intros [stages]. unfold ComposePostprocessor_call. simpl.
  induction stages as [|stage stages IH]; intros predictions p context c E.
  - simpl in E. congruence.
  - simpl in E. apply bind_Ok in E. destruct E as [[p1 c1] [E1 E]].
    simpl in E. apply IH in E. apply stage_keeps_context in E1. congruence.
Qed.

(** X5.  Running the stages of two lists one after the other is running
    the first list, then the second on what the first returned; when the
    first list raises, the second is not run and the error is the first's. *)
Theorem compose_of_concatenated_stages :
  forall (first second : list Postprocessor) (predictions : Predictions elt)
         (context : Context elt),
    ComposePostprocessor_call {| components := first ++ second |}
      predictions context
    = r <- ComposePostprocessor_call {| components := first |}
             predictions context ;;
      ComposePostprocessor_call {| components := second |} (fst r) (snd r).
Proof.
  unfold ComposePostprocessor_call. simpl.
  induction first as [|stage first IH]; intros second predictions context.
  - reflexivity.
  - simpl. destruct (Postprocessor_call stage predictions context)
      as [[p1 c1]|e]; simpl; [apply IH | reflexivity].
Qed.

(** X6.  The tail of the detector pipeline, [BboxToCoco] followed by
    [RescaleAndOffset] in [BBOX_XYWH] mode over the same distinct keys:
    with one scale pair and one offset pair in the context, every
    corner-pair row [(x1, y1, x2, y2)] of a configured array comes out as
    [(x1*sx + ox, y1*sy + oy, (x2 - x1)*sx, (y2 - y1)*sy)], and the arrays
    under the other names come out as they went in. *)
Theorem to_coco_then_rescale :
  forall (b : BboxToCoco) (r : RescaleAndOffset)
         (predictions : dict (ndarray elt)) (context : Context elt)
         (sx sy ox oy : elt),
    keys_to_rescale r = bounding_box_keys b ->
    mode r = Mode.BBOX_XYWH ->
    NoDup (bounding_box_keys b) ->
    NoDup (dict_keys predictions) ->
    dict_get context "scales" = Some (mk_ndarray [2] [sx; sy]) ->
    dict_get context "offsets" = Some (mk_ndarray [2] [ox; oy]) ->
    (forall k, In k (bounding_box_keys b) ->
       exists rows, dict_get predictions k = Some (bbox_array rows)) ->
    exists updated,
      ComposePostprocessor_call {| components := [ToCoco b; Rescale r] |}
        (Outputs predictions) context
      = Ok (Outputs updated, context) /\
      (forall k rows,
         In k (bounding_box_keys b) ->
         dict_get predictions k = Some (bbox_array rows) ->
         dict_get updated k
         = Some (bbox_array
                   (map (fun '(x1, y1, x2, y2) =>
                           (add (mul x1 sx) ox, add (mul y1 sy) oy,
                            mul (sub x2 x1) sx, mul (sub y2 y1) sy))
                        rows))) /\
      (forall k a,
         ~ In k (bounding_box_keys b) ->
         dict_get predictions k = Some a ->
         dict_get updated k = Some a).
Proof.
  intros b r predictions context sx sy ox oy Ekeys Em Hnb Hnp Ecs Eco Hall.
  destruct (to_coco_loop_spec (bounding_box_keys b) Hnb predictions Hall)
    as [converted [Eloop [Hin [Hout Hkeys]]]].
  set (scales := mk_ndarray [2] [sx; sy]) in *.
  set (offsets := mk_ndarray [2] [ox; oy]) in *.
  set (G := fun a : ndarray elt =>
              match rescale_bbox_xywh a scales offsets with
              | Ok a' => a'
              | Raise _ => a
              end).
  assert (Hconf : forall k, list_contains (keys_to_rescale r) k = true ->
                            In k (bounding_box_keys b)).
  { intros k Ck. rewrite Ekeys in Ck. unfold list_contains in Ck.
    apply existsb_exists in Ck. destruct Ck as [k' [I Ek]].
    apply String.eqb_eq in Ek. now subst. }
  assert (Hnconf : forall k, ~ In k (bounding_box_keys b) ->
                             list_contains (keys_to_rescale r) k = false).
  { intros k N. destruct (list_contains (keys_to_rescale r) k) eqn:Ck;
      [|reflexivity]. exfalso. auto. }
  assert (Hconf' : forall k, In k (bounding_box_keys b) ->
                             list_contains (keys_to_rescale r) k = true).
  { intros k I. rewrite Ekeys. unfold list_contains.
    apply existsb_exists. exists k. split; [exact I|].
    apply String.eqb_refl. }
  destruct (rescale_items_spec r scales offsets G converted)
    with (acc := @nil (string * ndarray elt)) as [updated [E [Hup _]]].
  { now rewrite Hkeys. }
  { intros name outputs I Cn.
    destruct (Hall name (Hconf name Cn)) as [rows Er].
    pose proof (Hin name rows (Hconf name Cn) Er) as Ec.
    rewrite (dict_get_of_In converted name outputs) in Ec
      by (rewrite ?Hkeys; assumption).
    injection Ec as ->.
    unfold rescale. rewrite Em. cbn [Mode.eqb]. unfold G, scales, offsets.
    now rewrite rescale_bbox_xywh_rows. }
  exists updated. unfold ComposePostprocessor_call. cbn [components compose_loop].
  unfold Postprocessor_call at 1, BboxToCoco_call. rewrite Eloop.
  cbn [fst snd as_outputs bind].
  unfold Postprocessor_call, RescaleAndOffset_call, dict_contains, dict_getitem.
  rewrite Ecs, Eco. cbn [negb andb bind fst]. rewrite E.
  cbn [bind as_outputs fst snd]. split; [reflexivity|]. split.
  - intros k rows I Ek.
    rewrite (Hup k _ (dict_get_In _ _ _ (Hin k rows I Ek))), (Hconf' k I).
    unfold G, scales, offsets. rewrite rescale_bbox_xywh_rows.
    rewrite map_map. do 2 f_equal.
    apply map_ext. intros [[[x1 y1] x2] y2]. reflexivity.
  - intros k a N Ek. rewrite <- (Hout k N) in Ek.
    now rewrite (Hup k _ (dict_get_In _ _ _ Ek)), (Hnconf k N).
Qed.
End Composition.

(** ** Arithmetic with a scalar, and assignment of a value of the exact shape *)

Lemma chunks_of_blocks {A : Type} (c : nat) (blocks : list (list A)) :
  Forall (fun b => length b = c) blocks ->
  chunks c (length blocks) (concat blocks) = blocks.
Proof.
  induction 1 as [|b blocks Hb Hall IH]; simpl; [reflexivity|].
  rewrite firstn_app, skipn_app, Hb, Nat.sub_diag.
  rewrite <- Hb at 1 3. rewrite firstn_all, skipn_all. simpl.
  rewrite app_nil_r, IH. reflexivity.
Qed.

Lemma chunks_fill {A : Type} (sz n : nat) (d : list A) :
  length d = n * sz ->
  Forall (fun b => length b = sz) (chunks sz n d) /\
  concat (chunks sz n d) = d.
Proof.
  revert d. induction n as [|n IH]; intros d E; simpl in *.
  - split; [constructor|]. symmetry. now apply length_zero_iff_nil.
  - destruct (IH (skipn sz d)) as [Hall Hcat].
    { rewrite length_skipn. lia. }
    split.
    + constructor; [|exact Hall]. rewrite length_firstn. lia.
    + rewrite Hcat. apply firstn_skipn.
Qed.

Lemma concat_repeat_repeat {A : Type} (x : A) (m b : nat) :
  concat (repeat (repeat x m) b) = repeat x (b * m).
Proof.
  induction b as [|b IH]; simpl; [reflexivity|].
  now rewrite IH, repeat_app.
Qed.

Lemma size_of_ones (k : nat) : size_of (repeat 1 k) = 1.
Proof.
  induction k as [|k IH]; simpl; [reflexivity|]. rewrite IH. reflexivity.
Qed.

Lemma stretches_rev_refl (s : list nat) : stretches_rev s s = true.
Proof.
  induction s as [|a s IH]; simpl; [reflexivity|].
  now rewrite Nat.eqb_refl, IH.
Qed.

Section WholeArrays.
Context {elt : Type} `{Scalar elt}.

Lemma expand_same (s : list nat) :
  forall d : list elt, length d = size_of s -> expand s s d = d.
Proof.
  induction s as [|a s IH]; intros d E; [reflexivity|].
  simpl in E. cbn [expand]. rewrite Nat.eqb_refl.
  destruct (chunks_fill (size_of s) a d E) as [Hall Hcat].
  rewrite <- Hcat at 2. f_equal.
  rewrite <- (map_id (chunks (size_of s) a d)) at 2.
  apply map_ext_in. intros b Ib. apply IH.
  rewrite Forall_forall in Hall. auto.
Qed.

Lemma expand_scalar_any (s : list nat) (x : elt) :
  expand (repeat 1 (length s)) s [x] = repeat x (size_of s).
Proof.
  induction s as [|b s IH]; [reflexivity|].
  cbn [length repeat expand]. rewrite size_of_ones.
  cbn [chunks firstn skipn map concat]. rewrite IH, app_nil_r.
  destruct (Nat.eqb_spec 1 b) as [<-|_].
  - simpl. now rewrite Nat.add_0_r.
  - apply concat_repeat_repeat.
Qed.

(** An array combined with a scalar: the operation is applied to every
    element, and the shape is kept. *)
Lemma binop_scalar_any (f : elt -> elt -> elt) (a : ndarray elt) (x : elt) :
  well_formed a ->
  np_binop f a (mk_ndarray [] [x])
  = Ok (mk_ndarray (shape a) (map (fun y => f y x) (data a))).
Proof.
  intros W. unfold np_binop, broadcast_shapes. cbn [shape rev].
  assert (Eb : broadcast_rev (rev (shape a)) [] = Some (rev (shape a)))
    by (destruct (rev (shape a)); reflexivity).
  rewrite Eb. cbn [option_map]. rewrite rev_involutive.
  unfold broadcast_to. cbn [shape data length].
  rewrite Nat.sub_diag, Nat.sub_0_r, app_nil_r. cbn [repeat app].
  rewrite (expand_same (shape a) (data a) W), expand_scalar_any.
  rewrite <- W, map2_repeat. reflexivity.
Qed.

(** Assigning a value that has exactly the shape of the selection. *)
Lemma put_exact (ax j : nat) (a v : ndarray elt) :
  in_bounds ax j (shape a) = true ->
  shape v = remove_axis ax (shape a) ->
  well_formed v ->
  np_put ax j a v
  = Ok (mk_ndarray (shape a) (replace ax j (shape a) (data a) (data v))).
Proof.
  intros Hb Es W. unfold np_put. rewrite Hb, <- Es, Nat.sub_diag.
  cbn [strip_ones]. unfold stretches. rewrite stretches_rev_refl.
  unfold broadcast_to. cbn [shape data]. rewrite Nat.sub_diag.
  cbn [repeat app]. now rewrite (expand_same (shape v) (data v) W).
Qed.
End WholeArrays.

(** ** Keypoints: [KEYPOINT] and [KEYPOINT_TD] *)

Lemma map_nested {A B C : Type} (h : B -> C) (a : A -> B) (l : list (list A)) :
  map h (concat (map (map a) l)) = concat (map (map (fun q => h (a q))) l).
Proof.
  induction l as [|x l IH]; simpl; [reflexivity|].
  now rewrite map_app, map_map, IH.
Qed.

Lemma length_rows {A Q : Type} (g : Q -> list A) (c : nat) (rows : list Q) :
  Forall (fun q => length (g q) = c) rows ->
  length (concat (map g rows)) = length rows * c.
Proof.
  induction 1 as [|q rows Hq Hall IH]; simpl; [reflexivity|].
  rewrite length_app, Hq, IH. reflexivity.
Qed.

Lemma mapM_all_Ok {A B : Type} (f : A -> result B) (g : A -> B) (l : list A) :
  (forall x, In x l -> f x = Ok (g x)) -> mapM f l = Ok (map g l).
Proof.
  induction l as [|x l IH]; intros Hall; simpl; [reflexivity|].
  rewrite (Hall x (or_introl eq_refl)). cbn [bind].
  rewrite IH by (intros y I; apply Hall; now right). reflexivity.
Qed.

Section Keypoints.
Context {elt : Type} `{Scalar elt}.

Lemma select_deeper (ax j n : nat) (s : list nat) (d : list elt) :
  select (S ax) j (n :: s) d
  = concat (map (select ax j s) (chunks (size_of s) n d)).
Proof.
  reflexivity.
Qed.

Lemma replace_deeper (ax j n : nat) (s : list nat) (d v : list elt) :
  replace (S ax) j (n :: s) d v
  = concat (map2 (replace ax j s)
              (chunks (size_of s) n d)
              (chunks (size_of (remove_axis ax s)) n v)).
Proof.
  reflexivity.
Qed.

Section Rows.
Context {Q : Type}.
Variables (g r : Q -> list elt) (c : nat).

Lemma select_column_rows (rows : list Q) (j : nat) :
  Forall (fun q => length (g q) = c) rows -> j < c ->
  select 1 j [length rows; c] (concat (map g rows))
  = map (fun q => nth j (g q) zero) rows.
Proof.
  intros Hg Hj. rewrite select_deeper.
  cbn [size_of fold_right]. rewrite Nat.mul_1_r.
  rewrite <- (length_map g rows) at 1.
  rewrite chunks_of_blocks by (apply Forall_map; exact Hg).
  rewrite map_map, <- (concat_singletons (fun q => nth j (g q) zero) rows).
  f_equal. apply map_ext_in. intros q Iq.
  cbn [select size_of fold_right]. rewrite Nat.mul_1_r.
  apply nth_of_skipn. rewrite Forall_forall in Hg. now rewrite (Hg q Iq).
Qed.

Lemma replace_column_rows (rows : list Q) (j : nat) (f : Q -> elt) :
  Forall (fun q => length (r q) = c) rows ->
  replace 1 j [length rows; c] (concat (map r rows)) (map f rows)
  = concat (map (fun q => firstn j (r q) ++ f q :: skipn (S j) (r q)) rows).
Proof.
  intros Hr. rewrite replace_deeper.
  cbn [remove_axis size_of fold_right]. rewrite Nat.mul_1_r.
  rewrite <- (length_map r rows) at 1.
  rewrite chunks_of_blocks by (apply Forall_map; exact Hr).
  rewrite <- (length_map f rows), chunks_of_one, map_map, map2_map.
  f_equal. apply map_ext. intros q.
  cbn [replace size_of fold_right]. now rewrite !Nat.mul_1_r.
Qed.

Lemma fills_blocks (f : Q -> list elt) (K : nat) (individuals : list (list Q)) :
  fills f c K individuals ->
  Forall (fun b => length b = K * c)
         (map (fun kps => concat (map f kps)) individuals).
Proof.
  intros Hf. apply Forall_map. eapply Forall_impl; [|exact Hf].
  intros kps [<- Hw]. now apply length_rows.
Qed.

Lemma fills_columns (K : nat) (individuals : list (list Q)) (a : Q -> elt) :
  Forall (fun kps => length kps = K) individuals ->
  Forall (fun b => length b = K) (map (map a) individuals) /\
  length (concat (map (map a) individuals)) = length individuals * (K * 1).
Proof.
  intros Hf. split.
  - apply Forall_map. eapply Forall_impl; [|exact Hf].
    intros kps <-. apply length_map.
  - induction Hf as [|kps l Hk Hall IH]; simpl; [reflexivity|].
    rewrite length_app, length_map, Hk, IH. lia.
Qed.

Lemma fills_lengths (f : Q -> list elt) (K : nat) (individuals : list (list Q)) :
  fills f c K individuals -> Forall (fun kps => length kps = K) individuals.
Proof.
  intros Hf. eapply Forall_impl; [|exact Hf]. now intros kps [E _].
Qed.

Lemma select_axis2 (K : nat) (individuals : list (list Q)) (j : nat) :
  fills g c K individuals -> j < c ->
  select 2 j [length individuals; K; c]
    (concat (map (fun kps => concat (map g kps)) individuals))
  = concat (map (map (fun q => nth j (g q) zero)) individuals).
Proof.
  intros Hg Hj. rewrite select_deeper.
  cbn [size_of fold_right]. rewrite !Nat.mul_1_r.
  rewrite <- (length_map (fun kps => concat (map g kps)) individuals) at 1.
  rewrite chunks_of_blocks by (apply fills_blocks; exact Hg).
  rewrite map_map. f_equal. apply map_ext_in. intros kps I.
  unfold fills in Hg. rewrite Forall_forall in Hg.
  destruct (Hg kps I) as [<- Hw]. now apply select_column_rows.
Qed.

Lemma replace_axis2 (K : nat) (individuals : list (list Q)) (j : nat)
    (f : Q -> elt) :
  fills r c K individuals ->
  replace 2 j [length individuals; K; c]
    (concat (map (fun kps => concat (map r kps)) individuals))
    (concat (map (map f) individuals))
  = concat (map (fun kps =>
                   concat (map (fun q => firstn j (r q)
                                         ++ f q :: skipn (S j) (r q)) kps))
                individuals).
Proof.
  intros Hr. rewrite replace_deeper.
  cbn [remove_axis size_of fold_right]. rewrite !Nat.mul_1_r.
  rewrite <- (length_map (fun kps => concat (map r kps)) individuals) at 1.
  rewrite chunks_of_blocks by (apply fills_blocks; exact Hr).
  rewrite <- (length_map (map f) individuals).
  rewrite chunks_of_blocks
    by (apply (fills_columns K individuals f), (fills_lengths r); exact Hr).
  rewrite map2_map. f_equal. apply map_ext_in. intros kps I.
  unfold fills in Hr. rewrite Forall_forall in Hr.
  destruct (Hr kps I) as [<- Hw]. now apply replace_column_rows.
Qed.

(** [rescaled[:, :, j] = outputs[:, :, j] * scales[i] + offsets[i]] on
    arrays of shape [(N, K, c)], the scales and offsets being vectors. *)
Lemma scale_and_offset_axis2 (K : nat) (individuals : list (list Q))
    (j i : nat) (sv ov : list elt) :
  fills g c K individuals -> fills r c K individuals ->
  j < c -> i < length sv -> i < length ov ->
  scale_and_offset 2 j i
    (mk_ndarray [length individuals; K; c]
       (concat (map (fun kps => concat (map r kps)) individuals)))
    (mk_ndarray [length individuals; K; c]
       (concat (map (fun kps => concat (map g kps)) individuals)))
    (mk_ndarray [length sv] sv) (mk_ndarray [length ov] ov)
  = Ok (mk_ndarray [length individuals; K; c]
          (concat (map (fun kps =>
                          concat (map (fun q =>
                                         firstn j (r q)
                                         ++ add (mul (nth j (g q) zero)
                                                     (nth i sv zero))
                                                (nth i ov zero)
                                            :: skipn (S j) (r q)) kps))
                       individuals))).
Proof.
  intros Hg Hr Hj Hs Ho. unfold scale_and_offset.
  unfold np_take at 1, in_bounds. cbn [shape data nth_error remove_axis].
  apply Nat.ltb_lt in Hj as Hb. rewrite Hb. cbn [bind].
  rewrite (select_axis2 K individuals j Hg Hj).
  rewrite (take_scalar sv i Hs). cbn [bind].
  pose proof (fills_lengths g K individuals Hg) as HK.
  rewrite binop_scalar_any
    by (apply (fills_columns K individuals _ HK)).
  cbn [bind shape data]. rewrite map_nested.
  rewrite (take_scalar ov i Ho). cbn [bind].
  rewrite binop_scalar_any
    by (apply (fills_columns K individuals _ HK)).
  cbn [bind shape data]. rewrite map_nested.
  rewrite put_exact.
  - cbn [shape data]. now rewrite (replace_axis2 K individuals j _ Hr).
  - unfold in_bounds. cbn [shape nth_error]. exact Hb.
  - reflexivity.
  - apply (fills_columns K individuals _ HK).
Qed.
End Rows.
End Keypoints.

Section KeypointModes.
Context {elt : Type} `{Scalar elt}.

(** Replacing the first channels of keypoints keeps their number. *)
Lemma fills_after_x (K C : nat) (individuals : list (list (elt * elt * list elt)))
    (f : elt * elt * list elt -> elt) :
  keypoints_fill K C individuals ->
  fills (fun q => firstn 0 (channels q) ++ f q :: skipn 1 (channels q))
        C K individuals.
Proof.
  intros Hf. eapply Forall_impl; [|exact Hf].
  intros kps [Ek Hw]. split; [exact Ek|].
  eapply Forall_impl; [|exact Hw]. intros [[x y] t] Hq. exact Hq.
Qed.

Lemma rescale_keypoint_xy (K C : nat)
    (individuals : list (list (elt * elt * list elt))) (sx sy ox oy : elt) :
  keypoints_fill K C individuals -> 2 <= C ->
  rescale_keypoint (keypoint_array K C individuals)
    (mk_ndarray [2] [sx; sy]) (mk_ndarray [2] [ox; oy])
  = Ok (keypoint_array K C
          (map (map (fun '(x, y, t) =>
                       (add (mul x sx) ox, add (mul y sy) oy, t)))
               individuals)).
Proof.
  intros Hf HC. unfold rescale_keypoint. rewrite copy_eq.
  unfold keypoint_array.
  pose proof (fun Q g r c K inds j i =>
    @scale_and_offset_axis2 elt _ Q g r c K inds j i [sx; sy] [ox; oy]) as E.
  cbn [length] in E.
  erewrite E by first [lia | exact Hf].
  cbn [bind].
  erewrite E by first [lia | exact Hf | apply fills_after_x; exact Hf].
  rewrite length_map, map_map. do 3 f_equal.
  apply map_ext. intros kps. rewrite map_map. f_equal.
  apply map_ext. intros [[x y] t]. reflexivity.
Qed.

(** X7.  In [KEYPOINT] mode with one scale pair [(sx, sy)] and one offset
    pair [(ox, oy)] in the context, every keypoint [(x, y, trailing...)] of
    each configured [(N, K, C)] array, [C >= 2], comes out as
    [(x*sx + ox, y*sy + oy, trailing...)]: the trailing channels pass
    through.  The arrays under the other names come out as they went in,
    and the caller's mapping is not changed. *)
Theorem keypoint_rescales_xy :
  forall (self : RescaleAndOffset) (predictions : dict (ndarray elt))
         (context : Context elt) (sx sy ox oy : elt),
    mode self = Mode.KEYPOINT ->
    dict_get context "scales" = Some (mk_ndarray [2] [sx; sy]) ->
    dict_get context "offsets" = Some (mk_ndarray [2] [ox; oy]) ->
    NoDup (dict_keys predictions) ->
    (forall name outputs,
       In (name, outputs) predictions ->
       list_contains (keys_to_rescale self) name = true ->
       exists K C individuals,
         outputs = keypoint_array K C individuals /\
         keypoints_fill K C individuals /\ 2 <= C) ->
    exists updated,
      RescaleAndOffset_call self predictions context
      = (Ok (updated, context), predictions) /\
      (forall name K C individuals,
         dict_get predictions name = Some (keypoint_array K C individuals) ->
         keypoints_fill K C individuals -> 2 <= C ->
         list_contains (keys_to_rescale self) name = true ->
         dict_get updated name
         = Some (keypoint_array K C
                   (map (map (fun '(x, y, t) =>
                                (add (mul x sx) ox, add (mul y sy) oy, t)))
                        individuals))) /\
      (forall name outputs,
         dict_get predictions name = Some outputs ->
         list_contains (keys_to_rescale self) name = false ->
         dict_get updated name = Some outputs).
Proof.
  intros self predictions context sx sy ox oy Em Ecs Eco Hnodup Hkp.
  set (scales := mk_ndarray [2] [sx; sy]) in *.
  set (offsets := mk_ndarray [2] [ox; oy]) in *.
  set (G := fun a : ndarray elt =>
              match rescale_keypoint a scales offsets with
              | Ok b => b
              | Raise _ => a
              end).
  destruct (rescale_items_spec self scales offsets G predictions Hnodup)
    with (acc := @nil (string * ndarray elt)) as [updated [E [Hin _]]].
  { intros name outputs I Cn.
    destruct (Hkp name outputs I Cn) as [K [C [inds [-> [Hf HC]]]]].
    unfold rescale. rewrite Em. cbn [Mode.eqb]. unfold G, scales, offsets.
    now rewrite (rescale_keypoint_xy K C inds sx sy ox oy Hf HC). }
  exists updated. unfold RescaleAndOffset_call, dict_contains, dict_getitem.
  rewrite Ecs, Eco. cbn [negb andb bind]. rewrite E. cbn [bind].
  split; [reflexivity|]. split.
  - intros name K C inds Eg Hf HC Cn.
    rewrite (Hin name _ (dict_get_In _ _ _ Eg)), Cn.
    unfold G, scales, offsets.
    now rewrite (rescale_keypoint_xy K C inds sx sy ox oy Hf HC).
  - intros name outputs Eg Cn.
    now rewrite (Hin name _ (dict_get_In _ _ _ Eg)), Cn.
Qed.

(** X8.  With the scale [(1, 1)] and the offset [(0, 0)], for an element
    type where [x*1 = x] and [x + 0 = x], [KEYPOINT] mode returns every
    array as it was given. *)
Theorem keypoint_unit_scale_is_identity :
  forall (self : RescaleAndOffset) (predictions : dict (ndarray elt))
         (context : Context elt),
    (forall x, mul x one = x) ->
    (forall x, add x zero = x) ->
    mode self = Mode.KEYPOINT ->
    dict_get context "scales" = Some (mk_ndarray [2] [one; one]) ->
    dict_get context "offsets" = Some (mk_ndarray [2] [zero; zero]) ->
    NoDup (dict_keys predictions) ->
    (forall name outputs,
       In (name, outputs) predictions ->
       list_contains (keys_to_rescale self) name = true ->
       exists K C individuals,
         outputs = keypoint_array K C individuals /\
         keypoints_fill K C individuals /\ 2 <= C) ->
    exists updated,
      RescaleAndOffset_call self predictions context
      = (Ok (updated, context), predictions) /\
      forall name outputs,
        dict_get predictions name = Some outputs ->
        dict_get updated name = Some outputs.
Proof.
  intros self predictions context Hmul Hadd Em Ecs Eco Hnodup Hkp.
  set (scales := mk_ndarray [2] [one; one]) in *.
  set (offsets := mk_ndarray [2] [zero; zero]) in *.
  set (G := fun a : ndarray elt =>
              match rescale_keypoint a scales offsets with
              | Ok b => b
              | Raise _ => a
              end).
  assert (Hid : forall K C inds,
             keypoints_fill K C inds -> 2 <= C ->
             rescale_keypoint (keypoint_array K C inds) scales offsets
             = Ok (keypoint_array K C inds)).
  { intros K C inds Hf HC. unfold scales, offsets.
    rewrite (rescale_keypoint_xy K C inds one one zero zero Hf HC).
    do 2 f_equal. rewrite <- (map_id inds) at 2.
    apply map_ext. intros kps. rewrite <- (map_id kps) at 2.
    apply map_ext. intros [[x y] t]. now rewrite !Hmul, !Hadd. }
  destruct (rescale_items_spec self scales offsets G predictions Hnodup)
    with (acc := @nil (string * ndarray elt)) as [updated [E [Hin _]]].
  { intros name outputs I Cn.
    destruct (Hkp name outputs I Cn) as [K [C [inds [-> [Hf HC]]]]].
    unfold rescale. rewrite Em. cbn [Mode.eqb]. unfold G.
    now rewrite (Hid K C inds Hf HC). }
  exists updated. unfold RescaleAndOffset_call, dict_contains, dict_getitem.
  rewrite Ecs, Eco. cbn [negb andb bind]. rewrite E. cbn [bind].
  split; [reflexivity|].
  intros name outputs Eg.
  rewrite (Hin name _ (dict_get_In _ _ _ Eg)).
  destruct (list_contains (keys_to_rescale self) name) eqn:Cn; [|reflexivity].
  destruct (Hkp name outputs (dict_get_In _ _ _ Eg) Cn)
    as [K [C [inds [-> [Hf HC]]]]].
  unfold G. now rewrite (Hid K C inds Hf HC).
Qed.
End KeypointModes.

Lemma combine_of_maps {A B A' B' : Type} (f : A -> A') (g : B -> B')
    (l : list A) (m : list B) :
  combine (map f l) (map g m)
  = map (fun p => (f (fst p), g (snd p))) (combine l m).
Proof.
  revert m. induction l as [|x l IH]; intros [|y m]; simpl;
    try reflexivity. now rewrite IH.
Qed.

Lemma mapM_of_map {A B C : Type} (f : B -> result C) (h : A -> B) (l : list A) :
  mapM f (map h l) = mapM (fun x => f (h x)) l.
Proof.
  induction l as [|x l IH]; simpl; [reflexivity|]. now rewrite IH.
Qed.

Section TopDown.
Context {elt : Type} `{Scalar elt}.

Lemma np_stack_same_shape (s : list nat) (arrays : list (ndarray elt)) :
  arrays <> [] ->
  Forall (fun a => shape a = s) arrays ->
  np_stack arrays
  = Ok (mk_ndarray (length arrays :: s) (concat (map data arrays))).
Proof.
  intros Ne Hall. unfold np_stack.
  destruct arrays as [|a arrays]; [contradiction|].
  rewrite (Forall_inv Hall).
  replace (forallb (fun b => shape_eqb s (shape b)) (a :: arrays)) with true;
    [reflexivity|].
  symmetry. apply forallb_forall. intros b Ib.
  rewrite Forall_forall in Hall. rewrite (Hall b Ib). apply shape_eqb_refl.
Qed.

(** [rescaled[:, j] = outputs[:, j] * scale[i] + offset[i]] on one
    individual, an array of shape [(K, c)]. *)
Lemma scale_and_offset_axis1 {Q : Type} (g r : Q -> list elt) (c : nat)
    (rows : list Q) (j i : nat) (sv ov : list elt) :
  Forall (fun q => length (g q) = c) rows ->
  Forall (fun q => length (r q) = c) rows ->
  j < c -> i < length sv -> i < length ov ->
  scale_and_offset 1 j i
    (mk_ndarray [length rows; c] (concat (map r rows)))
    (mk_ndarray [length rows; c] (concat (map g rows)))
    (mk_ndarray [length sv] sv) (mk_ndarray [length ov] ov)
  = Ok (mk_ndarray [length rows; c]
          (concat (map (fun q =>
                          firstn j (r q)
                          ++ add (mul (nth j (g q) zero) (nth i sv zero))
                                 (nth i ov zero)
                             :: skipn (S j) (r q))
                       rows))).
Proof.
  intros Hg Hr Hj Hs Ho. unfold scale_and_offset.
  unfold np_take at 1, in_bounds. cbn [shape data nth_error remove_axis].
  apply Nat.ltb_lt in Hj as Hb. rewrite Hb. cbn [bind].
  rewrite (select_column_rows g c rows j Hg Hj).
  rewrite (take_scalar sv i Hs). cbn [bind].
  assert (W : forall a : Q -> elt,
             well_formed (mk_ndarray [length rows] (map a rows))).
  { intros a. unfold well_formed. cbn [shape data size_of fold_right].
    rewrite length_map. lia. }
  rewrite binop_scalar_any by apply W.
  cbn [bind shape data]. rewrite map_map.
  rewrite (take_scalar ov i Ho). cbn [bind].
  rewrite binop_scalar_any by apply W.
  cbn [bind shape data]. rewrite map_map.
  rewrite put_exact.
  - cbn [shape data]. now rewrite (replace_column_rows r c rows j _ Hr).
  - unfold in_bounds. cbn [shape nth_error]. exact Hb.
  - reflexivity.
  - apply W.
Qed.

(** One turn of the loop over [zip(outputs, scales, offsets)]. *)
Lemma rescale_individual_xy (C : nat) (kps : list (elt * elt * list elt))
    (s o : elt * elt) :
  Forall (fun q => length (channels q) = C) kps -> 2 <= C ->
  rescale_individual
    (mk_ndarray [length kps; C] (concat (map channels kps)),
     mk_ndarray [2] [fst s; snd s], mk_ndarray [2] [fst o; snd o])
  = Ok (mk_ndarray [length kps; C]
          (concat (map channels
                     (map (fun '(x, y, t) =>
                             (add (mul x (fst s)) (fst o),
                              add (mul y (snd s)) (snd o), t))
                          kps)))).
Proof.
  intros Hw HC. unfold rescale_individual. rewrite copy_eq.
  pose proof (fun Q g r c rows j i =>
    @scale_and_offset_axis1 Q g r c rows j i
      [fst s; snd s] [fst o; snd o]) as E.
  cbn [length] in E.
  erewrite E by first [lia | exact Hw].
  cbn [bind].
  erewrite E.
  - rewrite map_map. do 3 f_equal.
    apply map_ext. intros [[x y] t]. reflexivity.
  - exact Hw.
  - eapply Forall_impl; [|exact Hw]. intros [[x y] t] Hq. exact Hq.
  - lia.
  - lia.
  - lia.
Qed.

Lemma rescale_keypoint_td_xy (K C : nat)
    (individuals : list (list (elt * elt * list elt)))
    (scales offsets : list (elt * elt)) :
  keypoints_fill K C individuals -> 2 <= C ->
  length scales = length individuals ->
  length offsets = length individuals ->
  rescale_keypoint_td (keypoint_array K C individuals)
    (pair_array scales) (pair_array offsets)
  = Ok (keypoint_array K C
          (map (fun item =>
                  map (fun '(x, y, t) =>
                         (add (mul x (fst (snd (fst item)))) (fst (snd item)),
                          add (mul y (snd (snd (fst item)))) (snd (snd item)),
                          t))
                      (fst (fst item)))
               (combine (combine individuals scales) offsets))).
Proof.
  intros Hf HC Es Eo.
  unfold rescale_keypoint_td, same_lengths, len.
  cbn [keypoint_array pair_array shape bind].
  rewrite Es, Eo, !Nat.eqb_refl. cbn [negb bind].
  destruct individuals as [|kps0 inds]; [reflexivity|].
  set (individuals := kps0 :: inds) in *.
  replace (length individuals =? 0) with false by reflexivity.
  unfold iter, pair_array. unfold keypoint_array at 1.
  cbn [shape data size_of fold_right bind].
  rewrite !Nat.mul_1_r.
  change (data (keypoint_array K C individuals))
    with (concat (map (fun kps => concat (map channels kps)) individuals)).
  rewrite <- (length_map (fun kps => concat (map channels kps)) individuals)
    at 1.
  rewrite chunks_of_blocks by (apply (fills_blocks C channels K); exact Hf).
  rewrite (chunks_of_rows (fun p : elt * elt => [fst p; snd p]) 2 scales)
    by reflexivity.
  rewrite (chunks_of_rows (fun p : elt * elt => [fst p; snd p]) 2 offsets)
    by reflexivity.
  rewrite !map_map, !combine_of_maps, mapM_of_map. cbn [fst snd].
  set (items := combine (combine individuals scales) offsets).
  rewrite (mapM_all_Ok _
             (fun item : list (elt * elt * list elt) * (elt * elt) * (elt * elt) =>
                mk_ndarray [K; C]
                  (concat (map channels
                     (map (fun '(x, y, t) =>
                             (add (mul x (fst (snd (fst item)))) (fst (snd item)),
                              add (mul y (snd (snd (fst item)))) (snd (snd item)),
                              t))
                          (fst (fst item))))))).
  - cbn [bind]. rewrite (np_stack_same_shape [K; C]).
    + unfold keypoint_array. rewrite !length_map, !map_map. reflexivity.
    + unfold items, individuals.
      destruct scales; [discriminate|]. destruct offsets; discriminate.
    + apply Forall_map, Forall_forall. reflexivity.
  - intros [[kps s] o] I. cbn [fst snd].
    apply in_combine_l, in_combine_l in I.
    unfold keypoints_fill in Hf. rewrite Forall_forall in Hf.
    destruct (Hf kps I) as [<- Hw].
    apply (rescale_individual_xy C kps s o Hw HC).
Qed.
End TopDown.

Section TopDownCall.
Context {elt : Type} `{Scalar elt}.

(** X9.  In [KEYPOINT_TD] mode with [N] scale pairs and [N] offset pairs
    in the context, each configured [(N, K, C)] array, [C >= 2], comes out
    with the keypoints of candidate [i] moved by the [i]-th scale and the
    [i]-th offset: [(x, y, trailing...)] becomes
    [(x*sx_i + ox_i, y*sy_i + oy_i, trailing...)].  With no candidate the
    empty array comes out as it is.  The other arrays come out as they went
    in, and the caller's mapping is not changed. *)
Theorem keypoint_td_rescales_each_candidate :
  forall (self : RescaleAndOffset) (predictions : dict (ndarray elt))
         (context : Context elt) (scales offsets : list (elt * elt)),
    mode self = Mode.KEYPOINT_TD ->
    dict_get context "scales" = Some (pair_array scales) ->
    dict_get context "offsets" = Some (pair_array offsets) ->
    length offsets = length scales ->
    NoDup (dict_keys predictions) ->
    (forall name outputs,
       In (name, outputs) predictions ->
       list_contains (keys_to_rescale self) name = true ->
       exists K C individuals,
         outputs = keypoint_array K C individuals /\
         keypoints_fill K C individuals /\ 2 <= C /\
         length individuals = length scales) ->
    exists updated,
      RescaleAndOffset_call self predictions context
      = (Ok (updated, context), predictions) /\
      (forall name K C individuals,
         dict_get predictions name = Some (keypoint_array K C individuals) ->
         keypoints_fill K C individuals -> 2 <= C ->
         length individuals = length scales ->
         list_contains (keys_to_rescale self) name = true ->
         dict_get updated name
         = Some (keypoint_array K C
                   (map (fun item =>
                           map (fun '(x, y, t) =>
                                  (add (mul x (fst (snd (fst item))))
                                       (fst (snd item)),
                                   add (mul y (snd (snd (fst item))))
                                       (snd (snd item)),
                                   t))
                               (fst (fst item)))
                        (combine (combine individuals scales) offsets)))) /\
      (forall name outputs,
         dict_get predictions name = Some outputs ->
         list_contains (keys_to_rescale self) name = false ->
         dict_get updated name = Some outputs).
Proof.
  intros self predictions context scales offsets Em Ecs Eco El Hnodup Hkp.
  set (G := fun a : ndarray elt =>
              match rescale_keypoint_td a (pair_array scales)
                      (pair_array offsets) with
              | Ok b => b
              | Raise _ => a
              end).
  destruct (rescale_items_spec self (pair_array scales) (pair_array offsets)
              G predictions Hnodup)
    with (acc := @nil (string * ndarray elt)) as [updated [E [Hin _]]].
  { intros name outputs I Cn.
    destruct (Hkp name outputs I Cn) as [K [C [inds [-> [Hf [HC En]]]]]].
    unfold rescale. rewrite Em. cbn [Mode.eqb]. unfold G.
    rewrite (rescale_keypoint_td_xy K C inds scales offsets Hf HC);
      [reflexivity | congruence | congruence]. }
  exists updated. unfold RescaleAndOffset_call, dict_contains, dict_getitem.
  rewrite Ecs, Eco. cbn [negb andb bind]. rewrite E. cbn [bind].
  split; [reflexivity|]. split.
  - intros name K C inds Eg Hf HC En Cn.
    rewrite (Hin name _ (dict_get_In _ _ _ Eg)), Cn. unfold G.
    rewrite (rescale_keypoint_td_xy K C inds scales offsets Hf HC);
      [reflexivity | congruence | congruence].
  - intros name outputs Eg Cn.
    now rewrite (Hin name _ (dict_get_In _ _ _ Eg)), Cn.
Qed.

(** X10.  The stage passes the predictions through only when the context
    has neither [scales] nor [offsets].  With exactly one of the two it
    raises [KeyError], whatever its mode and the predictions, and leaves
    the caller's mapping as it was. *)
Theorem rescale_needs_scales_and_offsets :
  forall (self : RescaleAndOffset) (predictions : dict (ndarray elt))
         (context : Context elt),
    dict_contains context "scales" <> dict_contains context "offsets" ->
    RescaleAndOffset_call self predictions context
    = (Raise KeyError, predictions).
Proof.
  intros self predictions context Hne.
  unfold RescaleAndOffset_call, dict_getitem.
  unfold dict_contains in *.
  destruct (dict_get context "scales") as [s|],
           (dict_get context "offsets") as [o|];
    try reflexivity; contradiction.
Qed.
End TopDownCall.

(** ** Construction *)

(** X11.  [ConcatenateOutputs] built with [create_empty_outputs=True]
    raises [ValueError] when some key to concatenate has no empty shape,
    and [TypeError] when there is a key and no mapping of empty shapes at
    all. *)
Theorem concatenate_init_rejects_missing_shapes :
  forall (kc : dict (string * string)),
    (forall (shapes : dict (list nat)) (name : string),
       In name (dict_keys kc) ->
       dict_get shapes name = None ->
       ConcatenateOutputs_init kc (Some shapes) true = Raise ValueError) /\
    (kc <> [] -> ConcatenateOutputs_init kc None true = Raise TypeError).
Proof.
  intros kc. split.
  - intros shapes name I En. unfold ConcatenateOutputs_init, shapes_contain.
    rewrite mapM_total. cbn [bind].
    replace (forallb (fun b : bool => b)
               (map (dict_contains shapes) (dict_keys kc))) with false;
      [reflexivity|].
    symmetry. apply not_true_is_false. intros Hall.
    rewrite forallb_forall in Hall.
    specialize (Hall (dict_contains shapes name) (in_map _ _ _ I)).
    unfold dict_contains in Hall. rewrite En in Hall. discriminate.
  - intros Ne. destruct kc as [|[name hv] kc]; [contradiction|]. reflexivity.
Qed.

(** X12.  The top-down builder returns no pipeline either, whatever its
    arguments: its first stage is built, and the name [DataType] is then
    looked up on [RescaleAndOffset]. *)
Theorem build_top_down_postprocessor_raises :
  forall max_individuals num_bodyparts num_unique_bodyparts : nat,
    build_top_down_postprocessor
      max_individuals num_bodyparts num_unique_bodyparts
    = Raise AttributeError.
Proof.
  intros mi nb nu. unfold build_top_down_postprocessor.
  destruct (0 <? nu); reflexivity.
Qed.

(** ** [ConcatenateOutputs]: when it returns *)

Section ConcatenationReturns.
Context {elt : Type} `{Scalar elt}.


End ConcatenationReturns.

(** * Video analysis *)

(** ** The snapshot to analyse with *)

Section SnapshotChoice.
Context {Path : Type}.

Lemma list_getitem_last (models : list Path) (m : Path) :
  list_getitem (models ++ [m]) (-1) = Returns m.
Proof.
  unfold list_getitem. rewrite length_app. cbn [length].
  replace (-1 <? 0)%Z with true by reflexivity.
  replace (-1 + Z.of_nat (length models + 1))%Z
    with (Z.of_nat (length models)) by lia.
  destruct (Z.ltb_spec (Z.of_nat (length models)) 0); [lia|].
  rewrite Nat2Z.id, nth_error_app2, Nat.sub_diag by lia. reflexivity.
Qed.

(** X14.  The index ["all"], given to the function or found in the
    configuration when none is given, selects the last snapshot, as [-1]
    does; with no snapshot in the folder the function raises
    [IndexError]. *)
Theorem snapshot_all_selects_last :
  forall (models : list Path) (m : Path) (config : dict SnapshotIndex),
    _get_model_path (models ++ [m]) (IndexStr "all") config = Returns m /\
    _get_model_path (models ++ [m]) (IndexInt (-1)) config = Returns m /\
    (dict_get config "snapshotindex" = Some (IndexStr "all") ->
     _get_model_path (models ++ [m]) IndexNone config = Returns m) /\
    _get_model_path (@nil Path) (IndexStr "all") config
    = Signals (Builtin IndexError).
Proof.
  intros models m config. unfold _get_model_path, snapshot_path.
  cbn [String.eqb]. repeat split.
  - change (if ("all" =? "all")%string then IndexInt (-1) else IndexStr "all")
      with (IndexInt (-1)).
    apply list_getitem_last.
  - apply list_getitem_last.
  - intros ->.
    change (if ("all" =? "all")%string then IndexInt (-1) else IndexStr "all")
      with (IndexInt (-1)).
    apply list_getitem_last.
Qed.

(** X15.  An integer index [i] over [n] snapshots selects snapshot
    [i mod n] when [-n <= i < n], so that negative indices count from the
    last snapshot, and raises [IndexError] otherwise. *)
Theorem snapshot_integer_index :
  forall (models : list Path) (i : Z) (config : dict SnapshotIndex),
    let n := Z.of_nat (length models) in
    ((- n <= i < n)%Z ->
     exists p,
       _get_model_path models (IndexInt i) config = Returns p /\
       nth_error models (Z.to_nat (i mod n)) = Some p) /\
    (~ (- n <= i < n)%Z ->
     _get_model_path models (IndexInt i) config
     = Signals (Builtin IndexError)).
Proof.
  intros models i config n. unfold _get_model_path, snapshot_path.
  cbv zeta. unfold list_getitem. fold n. split.
  - intros Hr.
    assert (Ej : (if (i <? 0)%Z then (i + n)%Z else i) = (i mod n)%Z).
    { destruct (Z.ltb_spec i 0).
      - rewrite <- (Z_mod_plus_full i 1 n), Z.mul_1_l.
        symmetry. apply Z.mod_small. lia.
      - symmetry. apply Z.mod_small. lia. }
    rewrite Ej.
    assert (Hm : (0 <= i mod n < n)%Z) by (apply Z.mod_pos_bound; lia).
    destruct (Z.ltb_spec (i mod n) 0); [lia|].
    destruct (nth_error models (Z.to_nat (i mod n))) as [p|] eqn:Ep.
    + exists p. auto.
    + apply nth_error_None in Ep. clear Ej.
      set (k := (i mod n)%Z) in *. unfold n in *. lia.
  - intros Hr. destruct (Z.ltb_spec i 0).
    + destruct (Z.ltb_spec (i + n) 0); [reflexivity | lia].
    + destruct (Z.ltb_spec i 0); [lia|].
      destruct (nth_error models (Z.to_nat i)) as [p|] eqn:Ep;
        [|reflexivity].
      assert (Hlt : Z.to_nat i < length models)
        by (apply nth_error_Some; congruence).
      unfold n in Hr. lia.
Qed.

(** X16.  An index that is given is used and the configuration is not
    read; the configuration is read when the index is [None], and a
    configuration without [snapshotindex] raises [KeyError].  A string
    other than ["all"], and a null value found in the configuration, fail
    the assertion that the index is an integer. *)
Theorem snapshot_index_resolution :
  forall (models : list Path) (config config' : dict SnapshotIndex),
    (forall index, index <> IndexNone ->
       _get_model_path models index config
       = _get_model_path models index config') /\
    (forall index, dict_get config "snapshotindex" = Some index ->
       index <> IndexNone ->
       _get_model_path models IndexNone config
       = _get_model_path models index config) /\
    (dict_get config "snapshotindex" = None ->
     _get_model_path models IndexNone config = Signals (Builtin KeyError)) /\
    (dict_get config "snapshotindex" = Some IndexNone ->
     _get_model_path models IndexNone config = Signals AssertionError) /\
    (forall s, s <> "all" ->
       _get_model_path models (IndexStr s) config = Signals AssertionError).
Proof.
  intros models config config'. unfold _get_model_path, snapshot_path.
  repeat split.
  - intros [|i|s] Hn; [contradiction | reflexivity | reflexivity].
  - intros [|i|s] Ec Hn; rewrite Ec; [contradiction | reflexivity | reflexivity].
  - intros ->. reflexivity.
  - intros ->. reflexivity.
  - intros s Hs. destruct (String.eqb_spec s "all"); [contradiction|].
    reflexivity.
Qed.
End SnapshotChoice.

(** ** Iterating over a video *)

Lemma skipn_of_nth_error {A : Type} (l : list A) (i : nat) (x : A) :
  nth_error l i = Some x -> skipn i l = x :: skipn (S i) l.
Proof.
  revert i. induction l as [|y l IH]; intros [|i] E; try discriminate.
  - injection E as ->. reflexivity.
  - simpl in E. rewrite (IH i E) at 1. reflexivity.
Qed.

Section Iteration.
Variables Reader Frame Ctx : Type.
Variable read_frame : Reader -> option Frame * Reader.
Variable reset : Reader -> Reader.

Lemma for_with_contexts (fuel : nat) :
  forall (self self' : VideoIterator Reader Ctx) (cs : list Ctx)
         (items : list (Frame + Frame * Ctx)) (stop : option signal),
    _context self = Some cs ->
    _index self <= length cs ->
    VideoIterator_for read_frame reset fuel self = (items, stop, self') ->
    map context_of items
    = map Some (firstn (length items) (skipn (_index self) cs)) /\
    _context self' = Some cs /\
    (stop = Some StopIteration -> _index self' = 0) /\
    (stop = Some (Builtin IndexError) ->
     _index self + length items = length cs) /\
    (stop = Some StopIteration \/ stop = Some (Builtin IndexError)
     \/ stop = None).
Proof.
  induction fuel as [|fuel IH]; intros self self' cs items stop Ec Hi E.
  - simpl in E. injection E as <- <- <-.
    repeat split; auto; discriminate.
  - simpl in E. unfold VideoIterator_next in E.
    destruct (read_frame (video self)) as [[frame|] video'].
    + rewrite Ec in E.
      destruct (nth_error cs (_index self)) as [c|] eqn:En.
      * destruct (VideoIterator_for read_frame reset fuel _)
          as [[items' stop'] self''] eqn:E'.
        injection E as <- <- <-.
        assert (Hlt : _index self < length cs)
          by (apply nth_error_Some; congruence).
        destruct (IH {| video := video'; _context := Some cs;
                        _index := S (_index self) |}
                    self'' cs items' stop' eq_refl Hlt E')
          as [Hmap [Hc [Hstop [Herr Hkind]]]].
        cbn [_index] in *. repeat split; auto.
        -- cbn [map length context_of firstn].
           rewrite (skipn_of_nth_error cs _ c En). cbn [firstn map].
           now rewrite Hmap.
        -- intros Es. specialize (Herr Es). cbn [length]. lia.
      * injection E as <- <- <-. apply nth_error_None in En.
        repeat split; auto; try discriminate. cbn [length]. lia.
    + injection E as <- <- <-. repeat split; auto; discriminate.
Qed.

(** X17.  A loop over an iterator that has contexts and starts at index 0
    gets the frames paired with the contexts in order, the [i]-th item
    with the [i]-th context.  When the video ends the loop, the index is
    back at 0 and the contexts are kept, so that the next loop pairs from
    the first context again. *)
Theorem video_iterator_pairs_in_order :
  forall (fuel : nat) (self self' : VideoIterator Reader Ctx) (cs : list Ctx)
         (items : list (Frame + Frame * Ctx)) (stop : option signal),
    _context self = Some cs ->
    _index self = 0 ->
    VideoIterator_for read_frame reset fuel self = (items, stop, self') ->
    map context_of items = map Some (firstn (length items) cs) /\
    _context self' = Some cs /\
    (stop = Some StopIteration -> _index self' = 0).
Proof.
  intros fuel self self' cs items stop Ec Ei E.
  destruct (for_with_contexts fuel self self' cs items stop Ec)
    as [Hmap [Hc [Hstop _]]]; [lia | exact E |].
  rewrite Ei in Hmap. auto.
Qed.

End Iteration.

(** * A whole pipeline without candidates *)

Section NoCandidate.
Context {elt : Type} `{Scalar elt} `{Subtraction elt}.

(** X19.  Concatenation with the empty shape [(num_bodyparts, 3)], then
    [KEYPOINT] rescaling, then padding to [max_individuals], composed and
    applied to an empty list of candidates: the result is one array of
    shape [(max_individuals, num_bodyparts, 3)] filled with [-1], whether
    the context has no scale and offset or one pair of each. *)
Theorem bottom_up_stages_without_candidates :
  forall (max_individuals num_bodyparts : nat) (context : Context elt),
    (dict_get context "scales" = None /\ dict_get context "offsets" = None)
    \/ (exists sx sy ox oy,
          dict_get context "scales" = Some (mk_ndarray [2] [sx; sy]) /\
          dict_get context "offsets" = Some (mk_ndarray [2] [ox; oy])) ->
    ComposePostprocessor_call
      {| components :=
           [Concatenate
              {| keys_to_concatenate := [("bodyparts", ("bodypart", "poses"))];
                 empty_shapes := Some [("bodyparts", [num_bodyparts; 3])];
                 create_empty_outputs := true |};
            Rescale {| keys_to_rescale := ["bodyparts"];
                       mode := Mode.KEYPOINT |};
            Pad {| max_individuals := [("bodyparts", max_individuals);
                                       ("unique_bodyparts", 0)];
                   pad_value := (-1)%Z |}] |}
      (Candidates []) context
    = Ok (Outputs
            [("bodyparts",
              mk_ndarray [max_individuals; num_bodyparts; 3]
                (repeat (neg one)
                   (max_individuals * size_of [num_bodyparts; 3])))],
          context).
Proof.
  intros mi nb context Hctx.
  assert (Epad : forall a : ndarray elt,
             a = mk_ndarray [0; nb; 3] [] ->
             as_outputs
               (fst (PadOutputs_call
                       {| max_individuals := [("bodyparts", mi);
                                              ("unique_bodyparts", 0)];
                          pad_value := (-1)%Z |}
                       [("bodyparts", a)] context))
             = Ok (Outputs
                     [("bodyparts",
                       mk_ndarray [mi; nb; 3]
                         (repeat (neg one) (mi * size_of [nb; 3])))],
                   context)).
  { intros a ->. unfold PadOutputs_call.
    cbn [dict_keys map fst pad_loop].
    unfold pad_one, dict_getitem.
    cbn [dict_get String.eqb Ascii.eqb Bool.eqb bind len shape
         max_individuals].
    destruct mi as [|mi]; [reflexivity|].
    replace (0 <? S mi) with true by reflexivity.
    rewrite (concatenate_padding (mk_ndarray [0; nb; 3] []) 0 (S mi - 0)
               [nb; 3] eq_refl).
    cbn [bind dict_set String.eqb Ascii.eqb Bool.eqb fst as_outputs snd].
    reflexivity. }
  unfold ComposePostprocessor_call.
  cbn [components compose_loop Postprocessor_call].
  unfold ConcatenateOutputs_call.
  cbn [length Nat.eqb keys_to_concatenate dict_keys map fst empty_outputs].
  unfold empty_shape_of, dict_getitem.
  cbn [empty_shapes dict_get String.eqb Ascii.eqb Bool.eqb bind dict_set
       as_outputs fst snd].
  destruct Hctx as [[Es Eo]|[sx [sy [ox [oy [Es Eo]]]]]].
  - unfold RescaleAndOffset_call, dict_contains. rewrite Es, Eo.
    cbn [negb andb fst as_outputs bind snd].
    now rewrite (Epad (np_zeros [0; nb; 3]) eq_refl).
  - unfold RescaleAndOffset_call, dict_contains, dict_getitem. rewrite Es, Eo.
    cbn [negb andb fst bind rescale_items].
    replace (list_contains
               (keys_to_rescale {| keys_to_rescale := ["bodyparts"];
                                   mode := Mode.KEYPOINT |}) "bodyparts")
      with true by reflexivity.
    unfold rescale. cbn [mode Mode.eqb].
    change (np_zeros [0; nb; 3])
      with (keypoint_array nb 3 (@nil (list (elt * elt * list elt)))).
    rewrite (rescale_keypoint_xy nb 3 [] sx sy ox oy)
      by first [apply Forall_nil | lia].
    cbn [bind dict_set as_outputs fst snd map].
    now rewrite (Epad (@keypoint_array elt nb 3 []) eq_refl).
Qed.
End NoCandidate.

(** * Instances of the further properties *)

Lemma bbox_to_coco_converts_rows_witness :
  exists converted,
    BboxToCoco_call {| bounding_box_keys := ["bboxes"] |}
      [("bboxes", bbox_array [(10, 20, 50, 80)%Z]);
       ("bbox_scores", mk_ndarray [1] [9]%Z)] []
    = (Ok (converted, []), converted) /\
    dict_get converted "bboxes" = Some (bbox_array [(10, 20, 40, 60)%Z]) /\
    dict_get converted "bbox_scores" = Some (mk_ndarray [1] [9]%Z).
Proof.
  destruct (bbox_to_coco_converts_rows {| bounding_box_keys := ["bboxes"] |}
              [("bboxes", bbox_array [(10, 20, 50, 80)%Z]);
               ("bbox_scores", mk_ndarray [1] [9]%Z)] [])
    as [converted [E [Hin Hout]]].
  - constructor; [intros []|constructor].
  - intros k [<-|[]]. exists [(10, 20, 50, 80)%Z]. reflexivity.
  - exists converted. split; [exact E|]. split.
    + apply (Hin "bboxes" [(10, 20, 50, 80)%Z]);
        [left; reflexivity | reflexivity].
    + rewrite (Hout "bbox_scores"); [reflexivity|].
      intros [E'|[]]. discriminate.
Defined.

Lemma bbox_to_coco_missing_key_witness :
  fst (BboxToCoco_call {| bounding_box_keys := ["bboxes"] |}
         [("bbox_scores", mk_ndarray [1] [9]%Z)] [])
  = Raise KeyError.
Proof.
  apply (bbox_to_coco_missing_key {| bounding_box_keys := ["bboxes"] |}
           [("bbox_scores", mk_ndarray [1] [9]%Z)] [] "bboxes").
  - left. reflexivity.
  - reflexivity.
  - intros k a [<-|[]] E. discriminate.
Defined.

Lemma compose_returns_its_context_witness :
  [("scales", mk_ndarray [2] [2; 3]%Z); ("offsets", mk_ndarray [2] [1; 1]%Z)]
  = [("scales", mk_ndarray [2] [2; 3]%Z); ("offsets", mk_ndarray [2] [1; 1]%Z)].
Proof.
  apply (compose_returns_its_context
           {| components := [ToCoco {| bounding_box_keys := ["bboxes"] |};
                             Rescale detector_rescale] |}
           (Outputs [("bboxes", bbox_array [(10, 20, 50, 80)%Z])])
           (Outputs [("bboxes", bbox_array [(21, 61, 80, 180)%Z])])).
  reflexivity.
Defined.

Lemma to_coco_then_rescale_witness :
  exists updated,
    ComposePostprocessor_call
      {| components := [ToCoco {| bounding_box_keys := ["bboxes"] |};
                        Rescale detector_rescale] |}
      (Outputs [("bboxes", bbox_array [(10, 20, 50, 80)%Z])])
      [("scales", mk_ndarray [2] [2; 3]%Z);
       ("offsets", mk_ndarray [2] [1; 1]%Z)]
    = Ok (Outputs updated,
          [("scales", mk_ndarray [2] [2; 3]%Z);
           ("offsets", mk_ndarray [2] [1; 1]%Z)]) /\
    dict_get updated "bboxes" = Some (bbox_array [(21, 61, 80, 180)%Z]).
Proof.
  destruct (to_coco_then_rescale {| bounding_box_keys := ["bboxes"] |}
              detector_rescale
              [("bboxes", bbox_array [(10, 20, 50, 80)%Z])]
              [("scales", mk_ndarray [2] [2; 3]%Z);
               ("offsets", mk_ndarray [2] [1; 1]%Z)]
              2%Z 3%Z 1%Z 1%Z)
    as [updated [E [Hin _]]].
  - reflexivity.
  - reflexivity.
  - constructor; [intros []|constructor].
  - constructor; [intros []|constructor].
  - reflexivity.
  - reflexivity.
  - intros k [<-|[]]. exists [(10, 20, 50, 80)%Z]. reflexivity.
  - exists updated. split; [exact E|].
    apply (Hin "bboxes" [(10, 20, 50, 80)%Z]);
      [left; reflexivity | reflexivity].
Defined.

Lemma keypoint_rescales_xy_witness :
  exists updated,
    RescaleAndOffset_call
      {| keys_to_rescale := ["bodyparts"]; mode := Mode.KEYPOINT |}
      [("bodyparts", keypoint_array 2 3 [[(1, 2, [9]); (3, 4, [8])]]%Z)]
      [("scales", mk_ndarray [2] [10; 100]%Z);
       ("offsets", mk_ndarray [2] [5; 6]%Z)]
    = (Ok (updated,
           [("scales", mk_ndarray [2] [10; 100]%Z);
            ("offsets", mk_ndarray [2] [5; 6]%Z)]),
       [("bodyparts", keypoint_array 2 3 [[(1, 2, [9]); (3, 4, [8])]]%Z)]) /\
    dict_get updated "bodyparts"
    = Some (keypoint_array 2 3 [[(15, 206, [9]); (35, 406, [8])]]%Z).
Proof.
  destruct (keypoint_rescales_xy
              {| keys_to_rescale := ["bodyparts"]; mode := Mode.KEYPOINT |}
              [("bodyparts", keypoint_array 2 3 [[(1, 2, [9]); (3, 4, [8])]]%Z)]
              [("scales", mk_ndarray [2] [10; 100]%Z);
               ("offsets", mk_ndarray [2] [5; 6]%Z)]
              10%Z 100%Z 5%Z 6%Z)
    as [updated [E [Hin _]]].
  - reflexivity.
  - reflexivity.
  - reflexivity.
  - constructor; [intros []|constructor].
  - intros name outputs [Eq|[]] _. injection Eq as <- <-.
    exists 2, 3, [[(1, 2, [9]); (3, 4, [8])]]%Z.
    split; [reflexivity|]. split; [|lia].
    repeat constructor.
  - exists updated. split; [exact E|].
    apply (Hin "bodyparts" 2 3 [[(1, 2, [9]); (3, 4, [8])]]%Z);
      [reflexivity | repeat constructor | lia | reflexivity].
Defined.

Lemma keypoint_unit_scale_is_identity_witness :
  exists updated,
    RescaleAndOffset_call
      {| keys_to_rescale := ["bodyparts"]; mode := Mode.KEYPOINT |}
      [("bodyparts", keypoint_array 2 3 [[(1, 2, [9]); (3, 4, [8])]]%Z)]
      [("scales", mk_ndarray [2] [1; 1]%Z);
       ("offsets", mk_ndarray [2] [0; 0]%Z)]
    = (Ok (updated,
           [("scales", mk_ndarray [2] [1; 1]%Z);
            ("offsets", mk_ndarray [2] [0; 0]%Z)]),
       [("bodyparts", keypoint_array 2 3 [[(1, 2, [9]); (3, 4, [8])]]%Z)]) /\
    dict_get updated "bodyparts"
    = Some (keypoint_array 2 3 [[(1, 2, [9]); (3, 4, [8])]]%Z).
Proof.
  destruct (keypoint_unit_scale_is_identity
              {| keys_to_rescale := ["bodyparts"]; mode := Mode.KEYPOINT |}
              [("bodyparts", keypoint_array 2 3 [[(1, 2, [9]); (3, 4, [8])]]%Z)]
              [("scales", mk_ndarray [2] [1; 1]%Z);
               ("offsets", mk_ndarray [2] [0; 0]%Z)])
    as [updated [E Hsame]].
  - intros x. simpl. lia.
  - intros x. simpl. lia.
  - reflexivity.
  - reflexivity.
  - reflexivity.
  - constructor; [intros []|constructor].
  - intros name outputs [Eq|[]] _. injection Eq as <- <-.
    exists 2, 3, [[(1, 2, [9]); (3, 4, [8])]]%Z.
    split; [reflexivity|]. split; [|lia].
    repeat constructor.
  - exists updated. split; [exact E|].
    apply (Hsame "bodyparts"). reflexivity.
Defined.

Lemma keypoint_td_rescales_each_candidate_witness :
  exists updated,
    RescaleAndOffset_call top_down_rescale
      [("bodyparts", keypoint_array 1 3 [[(1, 2, [9])]; [(3, 4, [8])]]%Z)]
      [("scales", pair_array [(10, 100); (2, 3)]%Z);
       ("offsets", pair_array [(5, 6); (0, 1)]%Z)]
    = (Ok (updated,
           [("scales", pair_array [(10, 100); (2, 3)]%Z);
            ("offsets", pair_array [(5, 6); (0, 1)]%Z)]),
       [("bodyparts", keypoint_array 1 3 [[(1, 2, [9])]; [(3, 4, [8])]]%Z)]) /\
    dict_get updated "bodyparts"
    = Some (keypoint_array 1 3 [[(15, 206, [9])]; [(6, 13, [8])]]%Z).
Proof.
  destruct (keypoint_td_rescales_each_candidate top_down_rescale
              [("bodyparts", keypoint_array 1 3 [[(1, 2, [9])]; [(3, 4, [8])]]%Z)]
              [("scales", pair_array [(10, 100); (2, 3)]%Z);
               ("offsets", pair_array [(5, 6); (0, 1)]%Z)]
              [(10, 100); (2, 3)]%Z [(5, 6); (0, 1)]%Z)
    as [updated [E [Hin _]]].
  - reflexivity.
  - reflexivity.
  - reflexivity.
  - reflexivity.
  - constructor; [intros []|constructor].
  - intros name outputs [Eq|[]] _. injection Eq as <- <-.
    exists 1, 3, [[(1, 2, [9])]; [(3, 4, [8])]]%Z.
    split; [reflexivity|]. split; [repeat constructor|]. split; [lia|].
    reflexivity.
  - exists updated. split; [exact E|].
    apply (Hin "bodyparts" 1 3 [[(1, 2, [9])]; [(3, 4, [8])]]%Z);
      [reflexivity | repeat constructor | lia | reflexivity | reflexivity].
Defined.

Lemma rescale_needs_scales_and_offsets_witness :
  RescaleAndOffset_call detector_rescale
    [("bboxes", bbox_array [(1, 2, 3, 4)%Z])]
    [("scales", mk_ndarray [2] [10; 100]%Z)]
  = (Raise KeyError, [("bboxes", bbox_array [(1, 2, 3, 4)%Z])]).
Proof.
  apply (rescale_needs_scales_and_offsets detector_rescale
           [("bboxes", bbox_array [(1, 2, 3, 4)%Z])]
           [("scales", mk_ndarray [2] [10; 100]%Z)]).
  discriminate.
Defined.


Lemma video_iterator_pairs_in_order_witness :
  map context_of
    (fst (fst (VideoIterator_for list_read_frame list_reset 5
                 {| video := ([10; 20; 30], [10; 20; 30]);
                    _context := Some [1; 2; 3]; _index := 0 |})))
  = map Some (firstn 3 [1; 2; 3]) /\
  _index (snd (VideoIterator_for list_read_frame list_reset 5
                 {| video := ([10; 20; 30], [10; 20; 30]);
                    _context := Some [1; 2; 3]; _index := 0 |}))
  = 0.
Proof.
  destruct (video_iterator_pairs_in_order (list nat * list nat) nat nat
              list_read_frame list_reset 5
              {| video := ([10; 20; 30], [10; 20; 30]);
                 _context := Some [1; 2; 3]; _index := 0 |}
              {| video := ([10; 20; 30], [10; 20; 30]);
                 _context := Some [1; 2; 3]; _index := 0 |}
              [1; 2; 3]
              [inr (10, 1); inr (20, 2); inr (30, 3)]
              (Some StopIteration))
    as [Hmap [_ Hstop]].
  - reflexivity.
  - reflexivity.
  - reflexivity.
  - split; [exact Hmap | exact (Hstop eq_refl)].
Defined.


Lemma bottom_up_stages_without_candidates_witness :
  ComposePostprocessor_call
    {| components :=
         [Concatenate
            {| keys_to_concatenate := [("bodyparts", ("bodypart", "poses"))];
               empty_shapes := Some [("bodyparts", [2; 3])];
               create_empty_outputs := true |};
          Rescale {| keys_to_rescale := ["bodyparts"];
                     mode := Mode.KEYPOINT |};
          Pad {| max_individuals := [("bodyparts", 1);
                                     ("unique_bodyparts", 0)];
                 pad_value := (-1)%Z |}] |}
    (Candidates []) ([] : Context Z)
  = Ok (Outputs
          [("bodyparts",
            mk_ndarray [1; 2; 3] (repeat (neg one) (1 * size_of [2; 3])))],
        []).
Proof.
  apply (bottom_up_stages_without_candidates 1 2 ([] : Context Z)).
  left. split; reflexivity.
Defined.
